(** * gryds.transformers.bspline: the B-spline point transformation

    A shallow embedding of [BSplineTransformation.__init__] and
    [BSplineTransformation._transform_points].

    Conventions of the embedding:
    - Python objects live in a store ([heap]); an [ndarray] and a transformation
      object are reached through their location, so copying and aliasing are
      visible.
    - A Python call is a computation in the monad [M]: it threads the store and
      either raises an exception ([inl]) or returns a value ([inr]).
    - The elements of a floating-point array are modelled by the rationals they
      denote, and an array carries its [dtype] as a tag. The conversion of the
      axis lengths to [DTYPE] and the subtraction of 1 from them are rounded as
      the precision demands; products and sums of coordinates are exact.
    - A point batch is the two-dimensional array [ndim x N] that gryds passes to
      [_transform_points]: one row per axis, one column per point. *)

From Stdlib Require Import ZArith QArith Qround String List Lia DecimalString.
From Stdlib Require DecimalPos DecimalZ.
From stdpp Require Import base gmap strings list.

Local Open Scope Z_scope.

(** ** Exceptions *)

Inductive exn :=
  | IndexError (msg : string)
  | ValueError (msg : string)
  | TypeError (msg : string)
  | AssertionError
  | RuntimeError (msg : string).

(** ** numpy arrays *)

Inductive dtype := float16 | float32 | float64.

Definition dtype_eqb (a b : dtype) : bool :=
  match a, b with
  | float16, float16 | float32, float32 | float64, float64 => true
  | _, _ => false
  end.

(** [np.result_type] on two floating dtypes: the wider one. *)
Definition result_type (a b : dtype) : dtype :=
  match a, b with
  | float64, _ | _, float64 => float64
  | float32, _ | _, float32 => float32
  | float16, float16 => float16
  end.

(** An array of any rank: its dtype, its shape and its elements in row-major
    order. *)
Record ndarray := mk_ndarray {
  nd_dtype : dtype;
  nd_shape : list nat;
  nd_data : list Q
}.

(** [a.ndim] *)
Definition nd_ndim (a : ndarray) : nat := length (nd_shape a).

Definition size_of (shape : list nat) : nat := fold_right Nat.mul 1%nat shape.

(** numpy refuses to build an array of more than [NPY_MAXDIMS] axes (32 before
    numpy 2, 64 since). *)
Definition NPY_MAXDIMS : nat := 64.

Definition wf_ndarray (a : ndarray) : Prop :=
  length (nd_data a) = size_of (nd_shape a) ∧ (nd_ndim a <= NPY_MAXDIMS)%nat.

(** [np.array(a, dtype=dt)]: a new array with the elements of [a] converted to
    [dt]. *)
Definition np_array (a : ndarray) (dt : dtype) : ndarray :=
  {| nd_dtype := dt; nd_shape := nd_shape a; nd_data := nd_data a |}.

(** A two-dimensional array, kept as its rows. [a2_cols] is the second entry of
    the shape, which the rows alone do not determine when there are none. *)
Record array2 := mk_array2 {
  a2_dtype : dtype;
  a2_cols : nat;
  a2_rows : list (list Q)
}.

Definition a2_nrows (a : array2) : nat := length (a2_rows a).

Definition wf_array2 (a : array2) : Prop :=
  Forall (λ r, length r = a2_cols a) (a2_rows a).

(** ** Python integers and [is]

    [a is b] compares object identity. CPython keeps one object for every
    integer from -5 to 256, and builds a new object for any other integer an
    expression produces. For two integers that come out of two different
    expressions, as [grid.shape[0]] and [grid.ndim - 1] do, identity therefore
    holds exactly when the values are equal and lie in the cached range. *)

Definition small_int (z : Z) : bool := (-5 <=? z) && (z <=? 256).

Definition py_is (a b : Z) : bool := (a =? b) && small_int a.

(** [str(z)] and [template.format(z)] for the one template of this module. *)
Definition str_of_int (z : Z) : string := NilZero.string_of_int (Z.to_int z).

Definition first_axis_message (expected : Z) : string :=
  "First axis of grid should be equal to transform's ndim " +:+
  str_of_int expected +:+ ".".

(** [sub in s] on strings. *)
Definition str_contains (sub s : string) : bool :=
  match String.index 0 sub s with Some _ => true | None => false end.

(** ** The store *)

Definition loc := positive.

(** The attributes of a [BSplineTransformation] object. [parameters] is a
    reference to an array in the store. *)
Record BSplineTransformation := mk_bspline {
  bspline_order : Z;
  mode : string;
  cval : Q;
  ndim : nat;
  parameters : loc
}.

Inductive object :=
  | Array (a : ndarray)
  | Transform (t : BSplineTransformation).

Abbreviation heap := (gmap loc object).

(** ** The monad of Python computations *)

Definition M (A : Type) : Type := heap → heap * (exn + A).

Definition ret {A} (x : A) : M A := λ h, (h, inr x).

Definition raise {A} (e : exn) : M A := λ h, (h, inl e).

Definition bind {A B} (c : M A) (k : A → M B) : M B :=
  λ h, match c h with
       | (h', inr x) => k x h'
       | (h', inl e) => (h', inl e)
       end.

Declare Scope py_scope.
Delimit Scope py_scope with py.
Notation "x <- c ;; k" := (bind c (λ x, k))
  (at level 100, c at next level, right associativity) : py_scope.
Local Open Scope py_scope.

(** Object creation: the new object gets a location no live object has. *)
Definition alloc (o : object) : M loc :=
  λ h, let l := fresh (dom h) in (<[l := o]> h, inr l).

Definition load_array (l : loc) : M ndarray :=
  λ h, match h !! l with
       | Some (Array a) => (h, inr a)
       | _ => (h, inl (TypeError "ndarray expected"))
       end.

Definition load_transform (l : loc) : M BSplineTransformation :=
  λ h, match h !! l with
       | Some (Transform t) => (h, inr t)
       | _ => (h, inl (TypeError "BSplineTransformation expected"))
       end.

Definition lift {A} (r : exn + A) : M A := λ h, (h, r).

(** [a.shape[i]] *)
Definition shape_item (a : ndarray) (i : nat) : exn + nat :=
  match nth_error (nd_shape a) i with
  | Some n => inr n
  | None => inl (IndexError "tuple index out of range")
  end.

(** [len(a)] *)
Definition np_len (a : ndarray) : exn + nat :=
  match nd_shape a with
  | n :: _ => inr n
  | [] => inl (TypeError "len() of unsized object")
  end.

(** ** Array operations used by the mapping *)

(** numpy's broadcasting rule for one axis. *)
Definition broadcast_dim (a b : nat) : option nat :=
  if (a =? b)%nat then Some a
  else if (a =? 1)%nat then Some b
  else if (b =? 1)%nat then Some a
  else None.

(** An axis of length 1 is repeated to the broadcast length. *)
Definition stretch {A} (n : nat) (l : list A) : list A :=
  match l with
  | [x] => repeat x n
  | _ => l
  end.

(** An elementwise binary operation on two-dimensional arrays, with
    broadcasting. *)
Definition broadcast2 (f : Q → Q → Q) (a b : array2) : exn + array2 :=
  match broadcast_dim (a2_nrows a) (a2_nrows b),
        broadcast_dim (a2_cols a) (a2_cols b) with
  | Some r, Some c =>
      inr {| a2_dtype := result_type (a2_dtype a) (a2_dtype b);
             a2_cols := c;
             a2_rows := zip_with (λ ra rb, zip_with f (stretch c ra) (stretch c rb))
                                 (stretch r (a2_rows a)) (stretch r (a2_rows b)) |}
  | _, _ => inl (ValueError "operands could not be broadcast together")
  end.

(** The number of significant bits of a floating dtype. *)
Definition precision (dt : dtype) : Z :=
  match dt with
  | float16 => 11
  | float32 => 24
  | float64 => 53
  end.


(** The floating-point number of [p] significant bits nearest to the integer
    [z], ties going to the even significand: what the conversion of an integer
    to a floating dtype and a floating-point operation with an integral exact
    result produce. An integer of fewer than [p] bits is kept. The exponent
    range is not part of it: the value is that of the program for integers up to
    [max_finite], which covers every length numpy allows in [float32] and
    [float64]; beyond 65504 [float16] overflows to infinity, which the
    rationals do not hold. *)
Definition round_int (p z : Z) : Z :=
  let a := Z.abs z in
  if a <? 2 ^ p then z
  else
    let e := Z.log2 a + 1 - p in
    let q := a / 2 ^ e in
    let r := a mod 2 ^ e in
    let half := 2 ^ (e - 1) in
    let m := if r <? half then q
             else if half <? r then q + 1
             else if Z.even q then q else q + 1 in
    Z.sgn z * (m * 2 ^ e).

(** One entry of [np.array(a.shape[1:], dtype=dt) - 1]: the length [n] is
    converted to [dt], then 1 is subtracted in [dt]. *)
Definition scale_factor (dt : dtype) (n : nat) : Q :=
  inject_Z (round_int (precision dt) (round_int (precision dt) (Z.of_nat n) - 1)).

(** [(np.array(a.shape[1:], dtype=dt) - 1)[:, None]]: one row per spatial axis,
    one column. *)
Definition scale_column (a : ndarray) (dt : dtype) : array2 :=
  {| a2_dtype := dt;
     a2_cols := 1;
     a2_rows := map (λ n : nat, [scale_factor dt n]) (tail (nd_shape a)) |}.

(** Iterating over an array yields its sub-arrays along the first axis. *)
Definition components (a : ndarray) : exn + list ndarray :=
  match nd_shape a with
  | [] => inl (TypeError "iteration over a 0-d array")
  | n :: rest =>
      inr (map (λ i : nat, {| nd_dtype := nd_dtype a;
                        nd_shape := rest;
                        nd_data := take (size_of rest)
                                        (drop (i * size_of rest) (nd_data a)) |})
               (seq 0 n))
  end.

(** [np.array(rows)] for a list of one-dimensional arrays of dtype [dt]. The
    empty list gives the empty one-dimensional [float64] array, which takes part
    in broadcasting as one row of no columns. *)
Definition np_array_rows (dt : dtype) (rows : list (list Q)) : array2 :=
  match rows with
  | [] => {| a2_dtype := float64; a2_cols := 0; a2_rows := [[]] |}
  | r :: _ => {| a2_dtype := dt; a2_cols := length r; a2_rows := rows |}
  end.

(** Column [j] of a two-dimensional array: the coordinates of point [j]. *)
Definition column (j : nat) (a : array2) : list Q :=
  map (λ r, nth j r 0%Q) (a2_rows a).

(** Row-major offset of a multi-index, and the element it selects. *)
Fixpoint flat_index (shape idx : list nat) : nat :=
  match shape, idx with
  | _ :: shape', i :: idx' => (i * size_of shape' + flat_index shape' idx')%nat
  | _, _ => 0%nat
  end.

Definition nd_get (a : ndarray) (idx : list nat) : Q :=
  nth (flat_index (nd_shape a) idx) (nd_data a) 0%Q.

(** ** Construction and mapping *)

Section Bspline.

(** [gryds.config.DTYPE], the one precision of the library. *)
Variable DTYPE : dtype.

(** [scipy.ndimage.map_coordinates(input, coordinates, order=, mode=, cval=)],
    the spline-evaluation primitive. It is pure; its result has the dtype of
    [input] and one element per column of [coordinates]. *)
Variable map_coordinates : ndarray → array2 → Z → string → Q → exn + list Q.

(** Modelled from the spec: [Transformation.__init__(ndim, parameters)] of the
    base class, which is not part of this module. It "stores them for later
    use": both become attributes of the object under construction. The object
    enters the store here, with the three attributes that the constructor has
    assigned before the call. *)
Definition Transformation_init (order : Z) (mode : string) (cval : Q)
    (ndim : nat) (parameters : loc) : M loc :=
  alloc (Transform {| bspline_order := order; mode := mode; cval := cval;
                      ndim := ndim; parameters := parameters |}).

(** [BSplineTransformation(grid, order, mode, cval)]. The result is the
    location of the new transformation object. *)
Definition __init__ (grid : loc) (order : Z) (mode : string) (cval : Q) : M loc :=
  (* grid = np.array(grid, dtype=DTYPE) *)
  raw <- load_array grid ;;
  grid <- alloc (Array (np_array raw DTYPE)) ;;
  a <- load_array grid ;;
  (* if grid.shape[0] is not grid.ndim - 1: raise ValueError(...) *)
  n <- lift (shape_item a 0) ;;
  if negb (py_is (Z.of_nat n) (Z.of_nat (nd_ndim a) - 1)) then
    raise (ValueError (first_axis_message (Z.of_nat (nd_ndim a) - 1)))
  else
    (* self.bspline_order = order; self.mode = mode; self.cval = cval
       super().__init__(ndim=len(grid), parameters=grid) *)
    len <- lift (np_len a) ;;
    Transformation_init order mode cval len grid.

(** The loop over the components of the grid: each one is sampled at the scaled
    points and the result is appended to [displacement]. *)
Fixpoint sample_components (comps : list ndarray) (scaled_points : array2)
    (order : Z) (mode : string) (cval : Q) (displacement : list (list Q))
    : exn + list (list Q) :=
  match comps with
  | [] => inr displacement
  | bspline_component :: rest =>
      match map_coordinates bspline_component scaled_points order mode cval with
      | inl e => inl e
      | inr d => sample_components rest scaled_points order mode cval
                                   (displacement ++ [d])
      end
  end.

(** [self._transform_points(points)] *)
Definition _transform_points (self : loc) (points : array2) : M array2 :=
  (* assert points.dtype == DTYPE *)
  if negb (dtype_eqb (a2_dtype points) DTYPE) then raise AssertionError else
  (* scaled_points = points * (np.array(self.parameters.shape[1:], ...) - 1)[:, None] *)
  t <- load_transform self ;;
  params <- load_array (parameters t) ;;
  scaled_points <- lift (broadcast2 Qmult points (scale_column params DTYPE)) ;;
  (* for bspline_component in self.parameters: displacement.append(...) *)
  comps <- lift (components params) ;;
  displacement <- lift (sample_components comps scaled_points (bspline_order t)
                                          (mode t) (cval t) []) ;;
  (* result = points + np.array(displacement) *)
  result <- lift (broadcast2 Qplus points
                             (np_array_rows (nd_dtype params) displacement)) ;;
  (* assert result.dtype == DTYPE *)
  if negb (dtype_eqb (a2_dtype result) DTYPE) then raise AssertionError
  else ret result.

(** A sequence of mapping calls on one transformation; the results are
    discarded, exceptions included. *)
Fixpoint transform_many (self : loc) (batches : list array2) (h : heap) : heap :=
  match batches with
  | [] => h
  | points :: rest => transform_many self rest (fst (_transform_points self points h))
  end.

End Bspline.

(** ** The contract of the spline-evaluation primitive

    The primitive belongs to scipy. The mapping is verified against the
    properties the specification gives for it; each is a predicate on the
    function that stands for [map_coordinates]. *)

Abbreviation primitive := (ndarray → array2 → Z → string → Q → exn + list Q).

Definition supported_mode (m : string) : bool :=
  String.eqb m "constant" || String.eqb m "nearest" || String.eqb m "mirror"
  || String.eqb m "reflect" || String.eqb m "wrap".

(** Modelled from the spec: "unsupported boundaryMode string fails with
    ConfigError; negative order fails with ConfigError". scipy raises
    [RuntimeError] for both. *)
Definition prim_rejects (prim : primitive) : Prop :=
  ∀ a c order mode cval,
    order < 0 ∨ supported_mode mode = false →
    ∃ msg, prim a c order mode cval = inl (RuntimeError msg).

(** Modelled from the spec: the primitive "returns one interpolated scalar per
    query". *)
Definition prim_arity (prim : primitive) : Prop :=
  ∀ a c order mode cval out,
    prim a c order mode cval = inr out → length out = a2_cols c.

(** Every axis has at least one element. *)
Definition nonempty_axes (shape : list nat) : Prop :=
  Forall (λ n : nat, (1 <= n)%nat) shape.

(** Modelled from the spec: for a configuration it supports, the primitive
    "returns one interpolated scalar per query". It returns for
    [(order, mode, cval)] whatever array of rank at least 1 without empty axes
    and whatever coordinates with one row per axis it is given. *)
Definition prim_accepts (prim : primitive) (order : Z) (mode : string) (cval : Q)
    : Prop :=
  ∀ a c,
    wf_ndarray a → (1 <= nd_ndim a)%nat → nonempty_axes (nd_shape a) →
    wf_array2 c → a2_nrows c = nd_ndim a →
    ∃ out, prim a c order mode cval = inr out.

(** The multi-index [idx] is a node of the array of shape [shape]. *)
Definition in_bounds (shape idx : list nat) : Prop :=
  Forall2 (λ i n : nat, (i < n)%nat) idx shape.

(** The coordinates [xs] are exactly the node [idx]. *)
Definition at_node (xs : list Q) (idx : list nat) : Prop :=
  Forall2 (λ (x : Q) (i : nat), x == inject_Z (Z.of_nat i)) xs idx.

(** Modelled from the spec: "at integer positions within [0, S-1] and
    order >= 1 the result equals A's exact stored value", for the given order
    and boundary mode. *)
Definition prim_node_exact (prim : primitive) (order : Z) (mode : string) : Prop :=
  ∀ a c cval out j idx,
    prim a c order mode cval = inr out →
    1 <= order →
    (j < a2_cols c)%nat →
    at_node (column j c) idx →
    in_bounds (nd_shape a) idx →
    nth j out 0%Q == nd_get a idx.

(** The coordinates [xs] lie within the extent of the array of shape [shape]:
    between the first and the last index of every axis. *)
Definition in_extent (xs : list Q) (shape : list nat) : Prop :=
  Forall2 (λ (x : Q) (n : nat), (0 <= x)%Q ∧ (x <= inject_Z (Z.of_nat n - 1))%Q)
          xs shape.




(** ** A reference evaluator for orders 0 and 1

    The primitive for the two orders that need no prefilter, nearest neighbour
    (order 0) and linear interpolation (order 1), with the five boundary modes.
    Higher orders are refused: their coefficients come out of a recursive filter
    with irrational poles. It is the instance at which the contract is shown to
    be satisfiable and at which the mapping is run on concrete inputs. *)

(** Modelled from the spec: the boundary modes, "mirror: reflect without
    repeating the edge sample; reflect: reflect repeating the edge sample;
    nearest: clamp to edge sample; wrap: periodic; constant: use constantValue
    beyond the extent". The result is the stored index that the virtual index
    [i] of an axis of length [n] stands for; [None]: beyond the extent, in mode
    [constant]. *)
Definition extend (mode : string) (n : nat) (i : Z) : option nat :=
  let len := Z.of_nat n in
  if String.eqb mode "constant" then
    if (0 <=? i) && (i <? len) then Some (Z.to_nat i) else None
  else if (n =? 0)%nat then Some 0%nat
  else if String.eqb mode "nearest" then
    Some (Z.to_nat (Z.max 0 (Z.min (len - 1) i)))
  else if String.eqb mode "wrap" then
    Some (Z.to_nat (i mod len))
  else if String.eqb mode "reflect" then
    let r := i mod (2 * len) in
    Some (Z.to_nat (if r <? len then r else 2 * len - 1 - r))
  else (* mirror *)
    if (n =? 1)%nat then Some 0%nat
    else
      let r := i mod (2 * len - 2) in
      Some (Z.to_nat (if r <? len then r else 2 * len - 2 - r)).

(** Modelled from the spec: the value at the coordinates [xs] of the array of
    shape [shape] stored in [data] from offset [off] on, axis by axis: the
    nearest sample for order 0, the linear interpolation of the two neighbouring
    samples otherwise. *)
Fixpoint interp (order : Z) (mode : string) (cval : Q) (shape : list nat)
    (data : list Q) (off : nat) (xs : list Q) : Q :=
  match shape, xs with
  | n :: shape', x :: xs' =>
      let sub (i : Z) : Q :=
        match extend mode n i with
        | Some k => interp order mode cval shape' data
                           (off + k * size_of shape')%nat xs'
        | None => cval
        end in
      if order =? 0 then sub (Qfloor (x + (1 # 2))%Q)
      else
        let i := Qfloor x in
        let t := (x - inject_Z i)%Q in
        ((1 - t) * sub i + t * sub (i + 1)%Z)%Q
  | _, _ => nth off data 0%Q
  end.

(** Modelled from the spec: the primitive, restricted to orders 0 and 1. The
    checks come in scipy's order, each raising [RuntimeError]. *)
Definition reference_map_coordinates : primitive :=
  λ input coordinates order mode cval,
    if (order <? 0) || (1 <? order) then
      inl (RuntimeError "spline order not supported")
    else if (nd_ndim input <? 1)%nat then
      inl (RuntimeError "input and output rank must be > 0")
    else if negb (a2_nrows coordinates =? nd_ndim input)%nat then
      inl (RuntimeError "invalid shape for coordinate array")
    else if negb (supported_mode mode) then
      inl (RuntimeError "boundary mode not supported")
    else
      inr (map (λ j, interp order mode cval (nd_shape input) (nd_data input) 0
                            (column j coordinates))
               (seq 0 (a2_cols coordinates))).

(** ** Concrete inputs *)

(** A store that holds the caller's array at location 1 and nothing else. *)
Definition caller_heap (raw : ndarray) : heap := {[ 1%positive := Array raw ]}.

(** A [float64] array, as [np.array] builds from Python floats. *)
Definition raw_grid (shape : list nat) (data : list Q) : ndarray :=
  {| nd_dtype := float64; nd_shape := shape; nd_data := data |}.

(** Rank 3 with a leading axis of length 3. *)
Definition grid_3x2x2 : ndarray := raw_grid [3; 2; 2]%nat (repeat 0%Q 12).

(** Rank 3 with a leading axis of length 5. *)
Definition grid_5x2x2 : ndarray := raw_grid [5; 2; 2]%nat (repeat 0%Q 20).

(** The grid of the scenario: +0.1 along axis 0 and -0.1 along axis 1 at each of
    the 3 x 3 control points. *)
Definition grid_scenario : ndarray :=
  raw_grid [2; 3; 3]%nat (repeat (1 # 10)%Q 9 ++ repeat (- 1 # 10)%Q 9).


(** [np.array([])]: rank 1, length 0. *)
Definition grid_empty : ndarray := raw_grid [0%nat] [].

Definition batch (dt : dtype) (cols : nat) (rows : list (list Q)) : array2 :=
  {| a2_dtype := dt; a2_cols := cols; a2_rows := rows |}.

(** Construction followed by one mapping call; the store is dropped. *)
Definition construct_and_map (DTYPE : dtype) (prim : primitive) (raw : ndarray)
    (order : Z) (mode : string) (cval : Q) (points : array2) : exn + array2 :=
  match __init__ DTYPE 1%positive order mode cval (caller_heap raw) with
  | (h, inr self) => snd (_transform_points DTYPE prim self points h)
  | (_, inl e) => inl e
  end.

(** ** Vocabulary of the statements *)

(** The rows of the scaled points: row [d] is multiplied by the factor of
    spatial axis [d], one less than its length in the precision [dt]. *)
Definition scaled_rows (dt : dtype) (rows : list (list Q)) (spatial : list nat)
    : list (list Q) :=
  zip_with (λ (row : list Q) (n : nat), map (λ x, (x * scale_factor dt n)%Q) row)
           rows spatial.

(** The axes on which the factor is exact: their length is at most 2 to the
    number of significant bits, so the length and its predecessor are both
    floating-point numbers of the precision [dt]. *)
Definition exact_axes (dt : dtype) (spatial : list nat) : Prop :=
  Forall (λ n : nat, Z.of_nat n <= 2 ^ precision dt) spatial.

(** Element [(d, i)] of a list of rows. *)
Definition cell (rows : list (list Q)) (d i : nat) : option Q :=
  match rows !! d with
  | Some row => row !! i
  | None => None
  end.

(** Two lists of rows hold equal numbers. *)
Definition rows_eq (r1 r2 : list (list Q)) : Prop := Forall2 (Forall2 Qeq) r1 r2.

(** A control-point grid as the data model has it: a well-formed array with at
    least one spatial axis and at least one control point along each. *)
Definition control_grid (raw : ndarray) : Prop :=
  wf_ndarray raw ∧ (2 <= nd_ndim raw)%nat ∧ nonempty_axes (tail (nd_shape raw)).

(** The point batch has the transformation's precision and one row per axis,
    all of one length. *)
Definition valid_batch (DTYPE : dtype) (n : nat) (points : array2) : Prop :=
  a2_dtype points = DTYPE ∧ wf_array2 points ∧ a2_nrows points = n.

(** The store after construction from [raw] in [caller_heap raw], and the
    location of the transformation in it: location 2 holds the copy of the
    grid, location 3 the transformation. *)
Definition built (DTYPE : dtype) (raw : ndarray) (order : Z) (mode : string)
    (cval : Q) : heap :=
  (__init__ DTYPE 1%positive order mode cval (caller_heap raw)).1.

Definition built_self : loc := 3%positive.




(** The query of the scenario: the single point (0.5, 0.5). *)
Definition scenario_points (DTYPE : dtype) : array2 :=
  batch DTYPE 1 [[1 # 2]; [1 # 2]].

(** The scaled points of a batch, as the mapping passes them to the
    primitive. *)
Definition scaled_batch (DTYPE : dtype) (points : array2) (spatial : list nat)
    : array2 :=
  {| a2_dtype := DTYPE; a2_cols := a2_cols points;
     a2_rows := scaled_rows DTYPE (a2_rows points) spatial |}.

(** ** The summary string *)

(** [self.__repr__()], for an object whose class is [BSplineTransformation]
    itself. *)
Definition __repr__ (self : loc) : M string :=
  (* '{}({}D, {})'.format(self.__class__.__name__, self.ndim,
         'x'.join([str(x) for x in self.parameters.shape[1:]])) *)
  t <- load_transform self ;;
  params <- load_array (parameters t) ;;
  ret ("BSplineTransformation" +:+ "(" +:+ str_of_int (Z.of_nat (ndim t)) +:+ "D, "
       +:+ String.concat "x" (map (λ x : nat, str_of_int (Z.of_nat x))
                                  (tail (nd_shape params)))
       +:+ ")").

(** The summary of a grid with the spatial axes [spatial]. *)
Definition summary (spatial : list nat) : string :=
  "BSplineTransformation(" +:+ str_of_int (Z.of_nat (length spatial)) +:+ "D, "
  +:+ String.concat "x" (map (λ x : nat, str_of_int (Z.of_nat x)) spatial) +:+ ")".

(** The characters of a decimal numeral. *)
Definition is_digit (c : Ascii.ascii) : bool :=
  let n := Ascii.nat_of_ascii c in (48 <=? n)%nat && (n <=? 57)%nat.

Fixpoint all_digits (s : string) : bool :=
  match s with
  | EmptyString => true
  | String c s' => is_digit c && all_digits s'
  end.

(** Three spatial axes of eight control points each. *)
Definition grid_3x8x8x8 : ndarray := raw_grid [3; 8; 8; 8]%nat (repeat 0%Q 1536).

(** A second grid of shape (2, 3, 3), all zeros. *)
Definition grid_zero_2x3x3 : ndarray := raw_grid [2; 3; 3]%nat (repeat 0%Q 18).

(** A rank-0 array, as [np.array(5.0)] builds. *)
Definition grid_scalar : ndarray := raw_grid [] [5%Q].

(** Each element of the primitive's result is determined by the column of the
    coordinates at its position: the queries are evaluated one by one. *)
Definition prim_pointwise (prim : primitive) : Prop :=
  ∀ a c c' order mode cval out out' j j',
    prim a c order mode cval = inr out →
    prim a c' order mode cval = inr out' →
    (j < a2_cols c)%nat → (j' < a2_cols c')%nat →
    column j c = column j' c' →
    nth j out 0%Q = nth j' out' 0%Q.

(** The primitive raises no [AssertionError]. *)
Definition prim_no_assertion (prim : primitive) : Prop :=
  ∀ a c order mode cval, prim a c order mode cval ≠ inl AssertionError.

(** * Properties *)

(** ** Identity of integers *)

Lemma py_is_small a b : small_int b = true → py_is a b = (a =? b).
Proof.
  unfold py_is. intros Hb. destruct (Z.eqb_spec a b) as [->|]; simpl; auto.
Qed.

(** Outside the cached range, equal values are still different objects. *)
Example py_is_large : py_is 300 300 = false.
Proof. reflexivity. Qed.

Lemma py_is_ne a b : a ≠ b → py_is a b = false.
Proof.
  unfold py_is. intros Hne. destruct (Z.eqb_spec a b); [contradiction | reflexivity].
Qed.

Lemma rank_pred_small (a : ndarray) :
  wf_ndarray a → small_int (Z.of_nat (nd_ndim a) - 1) = true.
Proof.
  intros [_ Hr]. unfold small_int, NPY_MAXDIMS in *.
  apply andb_true_iff. split; apply Z.leb_le; lia.
Qed.

(** ** Construction *)

(** What a call of the constructor does to the store, case by case. *)
Lemma init_run DTYPE g order mode cval (h : heap) :
  __init__ DTYPE g order mode cval h =
  match h !! g with
  | Some (Array raw) =>
      let p := fresh (dom h) in
      let h1 := <[p := Array (np_array raw DTYPE)]> h in
      match nd_shape raw with
      | [] => (h1, inl (IndexError "tuple index out of range"))
      | n :: _ =>
          if py_is (Z.of_nat n) (Z.of_nat (nd_ndim raw) - 1) then
            let s := fresh (dom h1) in
            (<[s := Transform (mk_bspline order mode cval n p)]> h1, inr s)
          else
            (h1, inl (ValueError (first_axis_message (Z.of_nat (nd_ndim raw) - 1))))
      end
  | _ => (h, inl (TypeError "ndarray expected"))
  end.
Proof.
  unfold __init__, bind, load_array, alloc, lift, raise, Transformation_init.
  destruct (h !! g) as [[raw|t]|] eqn:Hg; try reflexivity.
  cbn zeta. rewrite lookup_insert_eq.
  unfold shape_item, np_len, nd_ndim. simpl.
  destruct (nd_shape raw) as [|n rest]; simpl; [reflexivity|].
  destruct (py_is _ _); reflexivity.
Qed.

(** The two new locations of a successful construction. *)
Lemma fresh_not_in (h : heap) : h !! fresh (dom h) = None.
Proof. apply not_elem_of_dom, is_fresh. Qed.

(** C1. For a grid of rank R that has a leading axis, within numpy's limit on
    the rank: construction raises [ValueError] (the spec's ShapeError) exactly
    when the length of the leading axis differs from R - 1; when the two are
    equal it returns a transformation whose [ndim] is that length. *)
Theorem init_shape_check DTYPE (h : heap) g raw order mode cval n :
  h !! g = Some (Array raw) →
  wf_ndarray raw →
  head (nd_shape raw) = Some n →
  let r := __init__ DTYPE g order mode cval h in
  ((∃ msg, r.2 = inl (ValueError msg)) ↔ Z.of_nat n ≠ Z.of_nat (nd_ndim raw) - 1)
  ∧ ((∃ e, r.2 = inl e) ↔ Z.of_nat n ≠ Z.of_nat (nd_ndim raw) - 1)
  ∧ (Z.of_nat n = Z.of_nat (nd_ndim raw) - 1 →
     ∃ self t, r.2 = inr self ∧ r.1 !! self = Some (Transform t) ∧ ndim t = n).
Proof.
  intros Hg Hwf Hn r. subst r. rewrite init_run, Hg. cbn zeta.
  destruct (nd_shape raw) as [|n' rest] eqn:Hs; [discriminate|].
  simpl in Hn. injection Hn as ->.
  rewrite (py_is_small _ _ (rank_pred_small raw Hwf)).
  destruct (Z.eqb_spec (Z.of_nat n) (Z.of_nat (nd_ndim raw) - 1)) as [Heq|Hne]; simpl.
  - split; [|split].
    + split; [intros [msg Hm]; discriminate | intros Hc; contradiction].
    + split; [intros [e He]; discriminate | intros Hc; contradiction].
    + intros _. eexists _, _. split; [reflexivity|]. split; [apply lookup_insert_eq | reflexivity].
  - split; [|split].
    + split; [intros _; exact Hne | intros _; eexists; reflexivity].
    + split; [intros _; exact Hne | intros _; eexists; reflexivity].
    + intros Hc; contradiction.
Qed.

Lemma init_shape_check_witness :
  let r := __init__ float32 1%positive 1 "mirror" 0%Q (caller_heap grid_scenario) in
  ((∃ msg, r.2 = inl (ValueError msg)) ↔ Z.of_nat 2 ≠ Z.of_nat (nd_ndim grid_scenario) - 1)
  ∧ ((∃ e, r.2 = inl e) ↔ Z.of_nat 2 ≠ Z.of_nat (nd_ndim grid_scenario) - 1)
  ∧ (Z.of_nat 2 = Z.of_nat (nd_ndim grid_scenario) - 1 →
     ∃ self t, r.2 = inr self ∧ r.1 !! self = Some (Transform t) ∧ ndim t = 2%nat).
Proof.
  apply (init_shape_check float32 (caller_heap grid_scenario) 1%positive grid_scenario).
  - reflexivity.
  - split; [reflexivity | vm_compute; lia].
  - reflexivity.
Defined.

(** The constructor reads nothing but the grid: rank 0 has no leading axis, and
    indexing the empty shape raises [IndexError]. *)
Lemma init_rank0 DTYPE (h : heap) g raw order mode cval :
  h !! g = Some (Array raw) →
  nd_shape raw = [] →
  (__init__ DTYPE g order mode cval h).2 = inl (IndexError "tuple index out of range").
Proof. intros Hg Hs. rewrite init_run, Hg. cbn zeta. rewrite Hs. reflexivity. Qed.

(** What a successful construction leaves in the store: a copy of the caller's
    array and the transformation object, both at locations that were free. *)
Lemma init_inv DTYPE g order mode cval (h h' : heap) self :
  __init__ DTYPE g order mode cval h = (h', inr self) →
  ∃ raw n rest p,
    h !! g = Some (Array raw)
    ∧ nd_shape raw = n :: rest
    ∧ n = length rest
    ∧ h !! p = None ∧ h !! self = None ∧ p ≠ self
    ∧ h' = <[self := Transform (mk_bspline order mode cval n p)]>
             (<[p := Array (np_array raw DTYPE)]> h).
Proof.
  rewrite init_run. destruct (h !! g) as [[raw|t]|] eqn:Hg; try discriminate.
  cbn zeta. destruct (nd_shape raw) as [|n rest] eqn:Hs; [discriminate|].
  destruct (py_is _ _) eqn:Hpy; [|discriminate].
  set (p := fresh (dom h)).
  set (h1 := <[p := Array (np_array raw DTYPE)]> h).
  intros Heq. injection Heq as <- <-.
  assert (Hp : h !! p = None) by apply fresh_not_in.
  assert (Hs1 : h1 !! fresh (dom h1) = None) by apply fresh_not_in.
  assert (Hne : p ≠ fresh (dom h1)).
  { intros Heq. rewrite <- Heq in Hs1. unfold h1 in Hs1.
    rewrite lookup_insert_eq in Hs1. discriminate. }
  exists raw, n, rest, p. repeat split; auto.
  - unfold py_is in Hpy. apply andb_true_iff in Hpy as [Hpy _].
    apply Z.eqb_eq in Hpy. unfold nd_ndim in Hpy. rewrite Hs in Hpy.
    simpl length in Hpy. lia.
  - unfold h1 in Hs1. rewrite lookup_insert_ne in Hs1; auto.
Qed.

(** C6, as the code has it. When construction fails because the length of the
    leading axis differs from R - 1, the message of the [ValueError] is the fixed
    sentence followed by the expected value R - 1: it is determined by the rank
    of the grid alone, and the actual length of the leading axis is not part of
    it. *)
Theorem init_message DTYPE (h : heap) g raw order mode cval n :
  h !! g = Some (Array raw) →
  head (nd_shape raw) = Some n →
  Z.of_nat n ≠ Z.of_nat (nd_ndim raw) - 1 →
  (__init__ DTYPE g order mode cval h).2 =
    inl (ValueError ("First axis of grid should be equal to transform's ndim "
                     +:+ str_of_int (Z.of_nat (nd_ndim raw) - 1) +:+ ".")).
Proof.
  intros Hg Hn Hne. rewrite init_run, Hg. cbn zeta.
  destruct (nd_shape raw) as [|n' rest] eqn:Hs; [discriminate|].
  simpl in Hn. injection Hn as ->.
  rewrite (py_is_ne _ _ Hne). reflexivity.
Qed.

Lemma init_message_witness :
  (__init__ float32 1%positive 3 "mirror" 0%Q (caller_heap grid_3x2x2)).2 =
    inl (ValueError ("First axis of grid should be equal to transform's ndim "
                     +:+ str_of_int (Z.of_nat (nd_ndim grid_3x2x2) - 1) +:+ ".")).
Proof.
  apply (init_message float32 (caller_heap grid_3x2x2) 1%positive grid_3x2x2 3 "mirror" 0%Q 3%nat).
  - reflexivity.
  - reflexivity.
  - vm_compute. discriminate.
Defined.

(** C6, as the claim states it, fails: for a grid of shape (3, 2, 2) the
    expected value is 2 and the actual length is 3, and the message raised does
    not contain "3". The grid of shape (5, 2, 2) gets the same message. *)
Lemma init_message_counterexample :
  ∃ msg,
    (__init__ float32 1%positive 3 "mirror" 0%Q (caller_heap grid_3x2x2)).2
      = inl (ValueError msg)
    ∧ (__init__ float32 1%positive 3 "mirror" 0%Q (caller_heap grid_5x2x2)).2
      = inl (ValueError msg)
    ∧ str_contains (str_of_int 2) msg = true
    ∧ ¬ (str_contains (str_of_int 2) msg = true ∧ str_contains (str_of_int 3) msg = true).
Proof.
  eexists. split; [vm_compute; reflexivity|].
  split; [vm_compute; reflexivity|].
  split; [vm_compute; reflexivity|].
  intros [_ H]. vm_compute in H. discriminate.
Qed.

(** C10. Any store that holds the rank-1 array of length 0 at [g]: construction
    from it returns a transformation with [ndim = 0] whose parameters are the
    empty array. Construction does not guarantee a positive [ndim]. *)
Theorem init_empty_grid DTYPE (h : heap) g dt order mode cval :
  h !! g = Some (Array {| nd_dtype := dt; nd_shape := [0%nat]; nd_data := [] |}) →
  ∃ h' self t,
    __init__ DTYPE g order mode cval h = (h', inr self)
    ∧ h' !! self = Some (Transform t)
    ∧ ndim t = 0%nat
    ∧ h' !! parameters t
      = Some (Array {| nd_dtype := DTYPE; nd_shape := [0%nat]; nd_data := [] |}).
Proof.
  intros Hg.
  destruct (__init__ DTYPE g order mode cval h) as [h' [e|self]] eqn:Hrun.
  - rewrite init_run, Hg in Hrun. cbn in Hrun. discriminate.
  - destruct (init_inv _ _ _ _ _ _ _ _ Hrun)
      as (raw & n & rest & p & Hg' & Hs & Hn & Hp & Hself & Hne & ->).
    rewrite Hg in Hg'. injection Hg' as <-. simpl in Hs. injection Hs as <- <-.
    eexists _, _, _. split; [reflexivity|].
    split; [apply lookup_insert_eq|]. split; [reflexivity|].
    cbn. rewrite lookup_insert_ne by auto. apply lookup_insert_eq.
Qed.

Lemma init_empty_grid_witness :
  ∃ h' self t,
    __init__ float32 1%positive 3 "mirror" 0%Q (caller_heap grid_empty) = (h', inr self)
    ∧ h' !! self = Some (Transform t)
    ∧ ndim t = 0%nat
    ∧ h' !! parameters t
      = Some (Array {| nd_dtype := float32; nd_shape := [0%nat]; nd_data := [] |}).
Proof.
  apply (init_empty_grid float32 (caller_heap grid_empty) 1%positive float64).
  reflexivity.
Defined.

(** ** Mapping *)

(** C5. A point batch whose dtype is not [DTYPE] makes the mapping raise
    [AssertionError] (the spec's PrecisionError); nothing is returned and the
    store is as before. *)
Theorem transform_points_precision DTYPE prim self points (h : heap) :
  a2_dtype points ≠ DTYPE →
  _transform_points DTYPE prim self points h = (h, inl AssertionError).
Proof.
  intros Hne. unfold _transform_points.
  destruct (a2_dtype points), DTYPE; try contradiction; reflexivity.
Qed.

Lemma transform_points_precision_witness :
  _transform_points float32 reference_map_coordinates 3%positive
    (batch float64 1 [[1 # 2]; [1 # 2]])
    (__init__ float32 1%positive 1 "mirror" 0%Q (caller_heap grid_scenario)).1
  = ((__init__ float32 1%positive 1 "mirror" 0%Q (caller_heap grid_scenario)).1,
     inl AssertionError).
Proof.
  apply (transform_points_precision float32 reference_map_coordinates 3%positive
           (batch float64 1 [[1 # 2]; [1 # 2]])).
  simpl. discriminate.
Defined.

(** *** Broadcasting on a batch of the right shape *)

Lemma stretch_same {A} (l : list A) n : length l = n → stretch n l = l.
Proof. destruct l as [|x [|y l]]; simpl; intros <-; reflexivity. Qed.

Lemma zip_with_repeat_r {A B C} (f : A → B → C) (l : list A) (s : B) :
  zip_with f l (repeat s (length l)) = map (λ x, f x s) l.
Proof. induction l as [|x l IH]; simpl; [reflexivity | by rewrite IH]. Qed.

Lemma broadcast_dim_same n : broadcast_dim n n = Some n.
Proof. unfold broadcast_dim. by rewrite Nat.eqb_refl. Qed.

Lemma broadcast_dim_one n : broadcast_dim n 1 = Some n.
Proof.
  unfold broadcast_dim. destruct (Nat.eqb_spec n 1) as [->|]; reflexivity.
Qed.

Lemma result_type_same d : result_type d d = d.
Proof. by destruct d. Qed.

Lemma dtype_eqb_eq a b : dtype_eqb a b = true ↔ a = b.
Proof. destruct a, b; simpl; split; congruence. Qed.

Lemma dtype_eqb_refl a : dtype_eqb a a = true.
Proof. by apply dtype_eqb_eq. Qed.

Lemma scale_rows_zip dt c (rows : list (list Q)) (spatial : list nat) :
  Forall (λ r, length r = c) rows →
  zip_with (λ ra rb, zip_with Qmult (stretch c ra) (stretch c rb)) rows
           (map (λ n : nat, [scale_factor dt n]) spatial)
  = scaled_rows dt rows spatial.
Proof.
  intros Hwf. revert spatial.
  induction Hwf as [|row rows Hrow _ IH]; intros [|n spatial]; simpl; try reflexivity.
  f_equal; [|apply IH].
  rewrite (stretch_same row c Hrow). subst c. apply zip_with_repeat_r.
Qed.

(** The scaling step on a batch with one row per spatial axis. *)
Lemma scale_points DTYPE params points :
  wf_array2 points →
  a2_nrows points = length (tail (nd_shape params)) →
  broadcast2 Qmult points (scale_column params DTYPE)
  = inr {| a2_dtype := result_type (a2_dtype points) DTYPE;
           a2_cols := a2_cols points;
           a2_rows := scaled_rows DTYPE (a2_rows points) (tail (nd_shape params)) |}.
Proof.
  intros Hwf Hn. unfold broadcast2, scale_column, a2_nrows in *. simpl.
  rewrite length_map, <- Hn, broadcast_dim_same, broadcast_dim_one.
  do 2 f_equal.
  rewrite (stretch_same (a2_rows points)) by reflexivity.
  rewrite stretch_same by (by rewrite length_map).
  by apply scale_rows_zip.
Qed.

Lemma scaled_rows_length dt rows spatial :
  length rows = length spatial → length (scaled_rows dt rows spatial) = length rows.
Proof. intros H. unfold scaled_rows. rewrite length_zip_with. lia. Qed.


(** *** The factor of an axis *)

Lemma round_int_small p z : Z.abs z < 2 ^ p → round_int p z = z.
Proof.
  intros H. unfold round_int. by rewrite (proj2 (Z.ltb_lt _ _) H).
Qed.

(** On an axis of at most 2 to the precision control points the factor is one
    less than the length. *)
Lemma scale_factor_exact dt n :
  Z.of_nat n <= 2 ^ precision dt →
  scale_factor dt n = inject_Z (Z.of_nat n - 1).
Proof.
  intros Hn. unfold scale_factor. f_equal.
  assert (Hp : 1 < 2 ^ precision dt) by (destruct dt; reflexivity).
  assert (Hr : round_int (precision dt) (Z.of_nat n) = Z.of_nat n).
  { destruct (Z.eq_dec (Z.of_nat n) (2 ^ precision dt)) as [->|Hne].
    - destruct dt; reflexivity.
    - apply round_int_small. lia. }
  rewrite Hr. apply round_int_small. lia.
Qed.

(** *** The sampling loop *)

Lemma sample_components_acc prim comps coords order mode cval acc :
  sample_components prim comps coords order mode cval acc
  = match sample_components prim comps coords order mode cval [] with
    | inl e => inl e
    | inr ds => inr (acc ++ ds)
    end.
Proof.
  revert acc. induction comps as [|c comps IH]; intros acc; simpl.
  - by rewrite app_nil_r.
  - destruct (prim c coords order mode cval) as [e|d]; [reflexivity|].
    rewrite (IH (acc ++ [d])), (IH [d]).
    destruct (sample_components prim comps coords order mode cval []); [reflexivity|].
    by rewrite <- app_assoc.
Qed.

(** The loop returns exactly when every call of the primitive does, with the
    results in the order of the components. *)
Lemma sample_components_ok prim comps coords order mode cval ds :
  sample_components prim comps coords order mode cval [] = inr ds
  ↔ Forall2 (λ comp d, prim comp coords order mode cval = inr d) comps ds.
Proof.
  revert ds. induction comps as [|c comps IH]; intros ds; simpl.
  - split; [intros [= <-]; constructor | intros H; inversion H; reflexivity].
  - destruct (prim c coords order mode cval) as [e|d] eqn:Hc.
    + split; [discriminate | intros H; inversion H; congruence].
    + rewrite sample_components_acc.
      destruct (sample_components prim comps coords order mode cval []) as [e|ds'] eqn:Hrest.
      * split; [discriminate|]. intros H. inversion H as [|? ? ? ? ? Ht]; subst.
        apply IH in Ht. discriminate.
      * split.
        -- intros [= <-]. constructor; [assumption | by apply IH].
        -- intros H. inversion H as [|? d' ? ds'' Hd Ht]; subst.
           apply IH in Ht. simpl. congruence.
Qed.

(** The loop fails with the error of the first call that fails. *)
Lemma sample_components_first_error prim c comps coords order mode cval e :
  prim c coords order mode cval = inl e →
  sample_components prim (c :: comps) coords order mode cval [] = inl e.
Proof. intros H. simpl. by rewrite H. Qed.

Lemma components_length a n rest comps :
  nd_shape a = n :: rest → components a = inr comps → length comps = n.
Proof.
  unfold components. intros ->. intros [= <-]. by rewrite length_map, length_seq.
Qed.

Lemma components_shape a n rest comps :
  nd_shape a = n :: rest → components a = inr comps →
  Forall (λ c, nd_shape c = rest ∧ nd_dtype c = nd_dtype a) comps.
Proof.
  unfold components. intros ->. intros [= <-].
  apply Forall_forall. intros c Hc. apply list_elem_of_In, in_map_iff in Hc as (i & <- & _).
  by split.
Qed.

(** *** One mapping call, step by step *)

(** The mapping on a transformation whose parameters have rank [n + 1], given a
    valid batch: the store is returned as it was, and the outcome is that of the
    sampling loop on the scaled points followed by the addition. *)
Lemma transform_points_run DTYPE prim (h : heap) self t params points n rest comps :
  h !! self = Some (Transform t) →
  h !! parameters t = Some (Array params) →
  nd_shape params = n :: rest →
  length rest = n →
  valid_batch DTYPE n points →
  components params = inr comps →
  _transform_points DTYPE prim self points h =
    (h, match sample_components prim comps
                {| a2_dtype := DTYPE; a2_cols := a2_cols points;
                   a2_rows := scaled_rows DTYPE (a2_rows points) rest |}
                (bspline_order t) (mode t) (cval t) [] with
        | inl e => inl e
        | inr ds =>
            match broadcast2 Qplus points (np_array_rows (nd_dtype params) ds) with
            | inl e => inl e
            | inr result =>
                if negb (dtype_eqb (a2_dtype result) DTYPE) then inl AssertionError
                else inr result
            end
        end).
Proof.
  intros Hself Hp Hshape Hrest (Hdt & Hwf & Hrows) Hcomps.
  unfold _transform_points. rewrite Hdt, dtype_eqb_refl.
  unfold bind, load_transform, load_array, lift, raise, ret.
  cbn beta iota delta [negb]. rewrite Hself. cbn beta iota. rewrite Hp. cbn beta iota.
  rewrite scale_points by (rewrite ?Hshape; simpl; congruence).
  rewrite Hshape, Hcomps, Hdt, result_type_same. simpl tail.
  destruct (sample_components _ _ _ _ _ _ _) as [e|ds]; [reflexivity|].
  destruct (broadcast2 _ _ _) as [e|result]; [reflexivity|].
  destruct (negb _); reflexivity.
Qed.

Lemma zip_rows_stretch (f : Q → Q → Q) c (rows ds : list (list Q)) :
  Forall (λ r, length r = c) rows →
  Forall (λ r, length r = c) ds →
  zip_with (λ ra rb, zip_with f (stretch c ra) (stretch c rb)) rows ds
  = zip_with (zip_with f) rows ds.
Proof.
  intros Hr. revert ds. induction Hr as [|r rows Hlen _ IH]; intros ds Hd; [reflexivity|].
  destruct Hd as [|d ds Hdl Hd]; [reflexivity|]. simpl.
  rewrite (stretch_same r c Hlen), (stretch_same d c Hdl). f_equal. by apply IH.
Qed.

(** The addition of the displacement, when there is one row of it per row of
    the batch and one element per point. *)
Lemma add_displacement dt points ds :
  wf_array2 points →
  ds ≠ [] →
  length ds = a2_nrows points →
  Forall (λ d, length d = a2_cols points) ds →
  broadcast2 Qplus points (np_array_rows dt ds)
  = inr {| a2_dtype := result_type (a2_dtype points) dt;
           a2_cols := a2_cols points;
           a2_rows := zip_with (zip_with Qplus) (a2_rows points) ds |}.
Proof.
  intros Hwf Hne Hlen Hds. destruct ds as [|d ds]; [contradiction|].
  unfold broadcast2, np_array_rows, a2_nrows in *. cbn [a2_rows a2_cols a2_dtype].
  rewrite <- Hlen, broadcast_dim_same.
  rewrite (Forall_inv Hds), broadcast_dim_same.
  do 2 f_equal.
  rewrite (stretch_same (a2_rows points)) by (symmetry; exact Hlen).
  rewrite (stretch_same (d :: ds)) by reflexivity.
  by apply zip_rows_stretch.
Qed.

Lemma cell_zip_plus rows ds d i :
  cell (zip_with (zip_with Qplus) rows ds) d i
  = match cell rows d i, cell ds d i with
    | Some x, Some dx => Some (x + dx)%Q
    | _, _ => None
    end.
Proof.
  unfold cell. rewrite lookup_zip_with.
  destruct (rows !! d) as [row|]; simpl; [|reflexivity].
  destruct (ds !! d) as [dr|]; simpl.
  - rewrite lookup_zip_with. destruct (row !! i); simpl; [|reflexivity].
    destruct (dr !! i); reflexivity.
  - destruct (row !! i); reflexivity.
Qed.

(** What construction establishes about the new transformation. *)
Lemma init_transform DTYPE g ord md cv (h0 h : heap) self :
  __init__ DTYPE g ord md cv h0 = (h, inr self) →
  ∃ raw rest t,
    h0 !! g = Some (Array raw)
    ∧ nd_shape raw = length rest :: rest
    ∧ h !! self = Some (Transform t)
    ∧ bspline_order t = ord ∧ mode t = md ∧ cval t = cv
    ∧ ndim t = length rest
    ∧ h !! parameters t = Some (Array (np_array raw DTYPE))
    ∧ h0 !! parameters t = None ∧ h0 !! self = None
    ∧ h !! g = Some (Array raw).
Proof.
  intros Hrun.
  destruct (init_inv _ _ _ _ _ _ _ _ Hrun)
    as (raw & n & rest & p & Hg & Hs & Hn & Hp & Hself & Hne & ->).
  subst n. exists raw, rest, (mk_bspline ord md cv (length rest) p).
  repeat split; auto.
  - apply lookup_insert_eq.
  - cbn. rewrite lookup_insert_ne by auto. apply lookup_insert_eq.
  - rewrite !lookup_insert_ne; [exact Hg | congruence | congruence].
Qed.

(** ** The reference evaluator satisfies the contract *)

Lemma interp_cons order mode cval n shape data off x xs :
  interp order mode cval (n :: shape) data off (x :: xs)
  = let sub (i : Z) : Q :=
      match extend mode n i with
      | Some k => interp order mode cval shape data (off + k * size_of shape)%nat xs
      | None => cval
      end in
    if order =? 0 then sub (Qfloor (x + (1 # 2))%Q)
    else ((1 - (x - inject_Z (Qfloor x))) * sub (Qfloor x)
          + (x - inject_Z (Qfloor x)) * sub (Qfloor x + 1)%Z)%Q.
Proof. reflexivity. Qed.

(** A stored index stands for itself, in every mode. *)
Lemma extend_in_bounds mode n i :
  (i < n)%nat → extend mode n (Z.of_nat i) = Some i.
Proof.
  intros Hi. unfold extend.
  destruct (String.eqb mode "constant").
  { replace ((0 <=? Z.of_nat i) && (Z.of_nat i <? Z.of_nat n)) with true.
    - by rewrite Nat2Z.id.
    - symmetry. apply andb_true_iff. split; [apply Z.leb_le | apply Z.ltb_lt]; lia. }
  destruct (Nat.eqb_spec n 0); [lia|].
  destruct (String.eqb mode "nearest").
  { f_equal. lia. }
  destruct (String.eqb mode "wrap").
  { rewrite Z.mod_small by lia. by rewrite Nat2Z.id. }
  destruct (String.eqb mode "reflect").
  { rewrite Z.mod_small by lia.
    destruct (Z.ltb_spec (Z.of_nat i) (Z.of_nat n)); [|lia]. by rewrite Nat2Z.id. }
  destruct (Nat.eqb_spec n 1); [f_equal; lia|].
  rewrite Z.mod_small by lia.
  destruct (Z.ltb_spec (Z.of_nat i) (Z.of_nat n)); [|lia]. by rewrite Nat2Z.id.
Qed.




Lemma interp_node mode cval shape (data : list Q) off xs idx :
  at_node xs idx →
  in_bounds shape idx →
  interp 1 mode cval shape data off xs
  == nth (off + flat_index shape idx) data 0%Q.
Proof.
  intros Hx. revert shape off.
  induction Hx as [|x i xs idx Hxi _ IH]; intros shape off Hb.
  - inversion Hb; subst. simpl. by rewrite Nat.add_0_r.
  - inversion Hb as [|? n ? shape' Hin Hb']; subst.
    rewrite interp_cons. cbv zeta. simpl (1 =? 0). cbv iota.
    assert (Hf : Qfloor x = Z.of_nat i) by (rewrite Hxi; apply Qfloor_Z).
    rewrite Hf, (extend_in_bounds mode n i Hin).
    rewrite (IH shape' (off + i * size_of shape')%nat Hb').
    rewrite Hxi. simpl flat_index. rewrite Nat.add_assoc.
    ring.
Qed.

Lemma nth_map_seq (f : nat → Q) n j :
  (j < n)%nat → nth j (map f (seq 0 n)) 0%Q = f j.
Proof.
  intros Hj. rewrite (nth_indep _ 0%Q (f 0%nat)) by (by rewrite length_map, length_seq).
  rewrite map_nth, seq_nth by assumption. reflexivity.
Qed.

(** What a successful call of the reference evaluator has established. *)
Lemma reference_inv a c order mode cval out :
  reference_map_coordinates a c order mode cval = inr out →
  (order = 0 ∨ order = 1)
  ∧ supported_mode mode = true
  ∧ out = map (λ j, interp order mode cval (nd_shape a) (nd_data a) 0 (column j c))
              (seq 0 (a2_cols c)).
Proof.
  unfold reference_map_coordinates.
  destruct (Z.ltb_spec order 0); [discriminate|].
  destruct (Z.ltb_spec 1 order); [discriminate|]. simpl.
  destruct (nd_ndim a <? 1)%nat; [discriminate|].
  destruct (negb (a2_nrows c =? nd_ndim a)%nat); [discriminate|].
  destruct (supported_mode mode); [|discriminate]. simpl.
  intros [= <-]. repeat split. lia.
Qed.

Lemma reference_arity : prim_arity reference_map_coordinates.
Proof.
  intros a c order mode cval out H.
  apply reference_inv in H as (_ & _ & ->). by rewrite length_map, length_seq.
Qed.

Lemma reference_rejects : prim_rejects reference_map_coordinates.
Proof.
  intros a c order mode cval H. unfold reference_map_coordinates.
  destruct ((order <? 0) || (1 <? order)) eqn:Ho; [eexists; reflexivity|].
  destruct (nd_ndim a <? 1)%nat; [eexists; reflexivity|].
  destruct (negb (a2_nrows c =? nd_ndim a)%nat); [eexists; reflexivity|].
  destruct H as [H|H].
  - apply orb_false_iff in Ho as [Ho _]. apply Z.ltb_ge in Ho. lia.
  - rewrite H. eexists; reflexivity.
Qed.

Lemma reference_accepts order mode cval :
  order = 0 ∨ order = 1 →
  supported_mode mode = true →
  prim_accepts reference_map_coordinates order mode cval.
Proof.
  intros Ho Hm a c _ Hrank _ _ Hrows. unfold reference_map_coordinates.
  replace ((order <? 0) || (1 <? order)) with false
    by (destruct Ho as [-> | ->]; reflexivity).
  replace (nd_ndim a <? 1)%nat with false by (symmetry; apply Nat.ltb_ge; lia).
  rewrite Hrows, Nat.eqb_refl, Hm. simpl. eexists; reflexivity.
Qed.

Lemma reference_node_exact order mode :
  prim_node_exact reference_map_coordinates order mode.
Proof.
  intros a c cval out j idx H Ho Hj Hnode Hb.
  apply reference_inv in H as ([-> | ->] & _ & ->); [lia|].
  rewrite nth_map_seq by assumption.
  rewrite (interp_node mode cval _ _ 0 _ idx Hnode Hb). reflexivity.
Qed.




(** ** Mapping a valid batch *)

Lemma sample_components_total prim comps coords order mode cval :
  Forall (λ comp, ∃ d, prim comp coords order mode cval = inr d) comps →
  ∃ ds, sample_components prim comps coords order mode cval [] = inr ds.
Proof.
  induction 1 as [|c comps [d Hd] _ [ds IH]]; simpl.
  - by exists [].
  - rewrite Hd, sample_components_acc, IH. by eexists.
Qed.


Lemma zip_plus_wf c (rows ds : list (list Q)) :
  Forall (λ r, length r = c) rows →
  Forall (λ r, length r = c) ds →
  Forall (λ r, length r = c) (zip_with (zip_with Qplus) rows ds).
Proof.
  intros Hr. revert ds. induction Hr as [|r rows Hlen _ IH]; intros ds Hd; [constructor|].
  destruct Hd as [|d ds Hdl Hd]; [constructor|]. simpl. constructor; [|by apply IH].
  rewrite length_zip_with. lia.
Qed.

Lemma cell_displacement c (rows ds : list (list Q)) d i x :
  Forall (λ r, length r = c) rows →
  Forall (λ r, length r = c) ds →
  length ds = length rows →
  cell rows d i = Some x →
  ∃ dx, cell ds d i = Some dx.
Proof.
  unfold cell. intros Hr Hd Hlen Hx.
  destruct (rows !! d) as [row|] eqn:Hrow; [|discriminate].
  destruct (lookup_lt_is_Some_2 ds d) as [dr Hdr].
  { rewrite Hlen. by eapply lookup_lt_Some. }
  rewrite Hdr. apply lookup_lt_is_Some_2.
  rewrite (proj1 (Forall_lookup _ _) Hd d dr Hdr).
  rewrite <- (proj1 (Forall_lookup _ _) Hr d row Hrow).
  by eapply lookup_lt_Some.
Qed.

(** The shape of the parameters of a constructed transformation and of their
    components. *)
Lemma components_of_copy DTYPE raw rest :
  nd_shape raw = length rest :: rest →
  ∃ comps, components (np_array raw DTYPE) = inr comps
    ∧ length comps = length rest
    ∧ Forall (λ c, nd_shape c = rest ∧ nd_dtype c = DTYPE
                   ∧ (wf_ndarray raw → wf_ndarray c)) comps.
Proof.
  intros Hs. unfold components, np_array. cbn [nd_shape nd_dtype nd_data]. rewrite Hs.
  eexists. split; [reflexivity|]. split; [by rewrite length_map, length_seq|].
  apply Forall_forall. intros c Hc.
  apply list_elem_of_In, in_map_iff in Hc as (i & <- & Hi).
  apply in_seq in Hi. split; [reflexivity|]. split; [reflexivity|].
  intros [Hlen Hrank]. unfold wf_ndarray, nd_ndim in *.
  cbn [nd_shape nd_data]. rewrite Hs in Hlen, Hrank. simpl in Hlen, Hrank.
  split; [|lia].
  rewrite length_take, length_drop, Hlen. apply Nat.min_l. nia.
Qed.

Lemma scaled_rows_wf dt c rows spatial :
  Forall (λ r : list Q, length r = c) rows →
  Forall (λ r : list Q, length r = c) (scaled_rows dt rows spatial).
Proof.
  intros Hr. revert spatial. unfold scaled_rows.
  induction Hr as [|r rows Hlen _ IH]; intros [|n spatial]; simpl; try constructor.
  - by rewrite length_map.
  - apply IH.
Qed.

(** The outcome of mapping a valid batch through a transformation that the
    constructor built from a control-point grid, when the primitive accepts the
    configuration: the scaled points, the displacement sampled from each
    component, and their sum with the points. *)
Lemma transform_points_valid DTYPE prim g ord md cv (h0 h : heap) self raw points :
  prim_arity prim →
  prim_accepts prim ord md cv →
  __init__ DTYPE g ord md cv h0 = (h, inr self) →
  h0 !! g = Some (Array raw) →
  control_grid raw →
  valid_batch DTYPE (nd_ndim raw - 1) points →
  ∃ comps displacement,
    components (np_array raw DTYPE) = inr comps
    ∧ Forall2 (λ comp d,
         prim comp (scaled_batch DTYPE points (tail (nd_shape raw))) ord md cv = inr d)
        comps displacement
    ∧ length displacement = a2_nrows points
    ∧ Forall (λ d, length d = a2_cols points) displacement
    ∧ _transform_points DTYPE prim self points h
      = (h, inr {| a2_dtype := DTYPE; a2_cols := a2_cols points;
                   a2_rows := zip_with (zip_with Qplus) (a2_rows points) displacement |}).
Proof.
  intros Har Hacc Hrun Hg (Hwfraw & Hrank & Haxes) Hvalid.
  destruct (init_transform _ _ _ _ _ _ _ _ Hrun)
    as (raw' & rest & t & Hg' & Hs & Hself & Ho & Hm & Hc & Hnd & Hp & _).
  rewrite Hg in Hg'. injection Hg' as <-.
  assert (Hn : nd_ndim raw = S (length rest)) by (unfold nd_ndim; by rewrite Hs).
  rewrite Hn in Hvalid, Hrank. simpl in Hvalid. rewrite Nat.sub_0_r in Hvalid.
  rewrite Hs in Haxes. simpl tail in Haxes.
  destruct (components_of_copy DTYPE raw rest Hs) as (comps & Hcomps & Hlen & Hshape).
  pose proof (transform_points_run DTYPE prim h self t (np_array raw DTYPE) points
                (length rest) rest comps Hself Hp Hs eq_refl Hvalid Hcomps) as Hrun'.
  rewrite Ho, Hm, Hc in Hrun'. rewrite Hs. simpl tail.
  destruct Hvalid as (Hdt & Hwf & Hrows).
  change {| a2_dtype := DTYPE; a2_cols := a2_cols points;
            a2_rows := scaled_rows DTYPE (a2_rows points) rest |}
    with (scaled_batch DTYPE points rest) in Hrun'.
  set (scaled := scaled_batch DTYPE points rest) in *.
  destruct (sample_components_total prim comps scaled ord md cv) as [ds Hds].
  { eapply Forall_impl; [exact Hshape|]. intros c (Hcs & _ & Hcwf). apply Hacc.
    - by apply Hcwf.
    - unfold nd_ndim. rewrite Hcs. lia.
    - by rewrite Hcs.
    - by apply scaled_rows_wf.
    - unfold nd_ndim, a2_nrows, scaled. cbn [scaled_batch a2_rows]. rewrite Hcs.
      rewrite scaled_rows_length; exact Hrows. }
  rewrite Hds in Hrun'.
  pose proof (proj1 (sample_components_ok _ _ _ _ _ _ _) Hds) as Hall.
  assert (Hdl : length ds = a2_nrows points).
  { rewrite <- (Forall2_length _ _ _ Hall). congruence. }
  assert (Hdc : Forall (λ d, length d = a2_cols points) ds).
  { apply Forall_forall. intros d Hd.
    apply list_elem_of_lookup in Hd as [k Hk].
    destruct (Forall2_lookup_r _ _ _ _ _ Hall Hk) as (c & _ & Hcd).
    apply Har in Hcd. exact Hcd. }
  rewrite add_displacement in Hrun'; auto.
  - cbn [a2_dtype np_array nd_dtype] in Hrun'.
    rewrite Hdt, result_type_same, dtype_eqb_refl in Hrun'. simpl in Hrun'.
    exists comps, ds. auto.
  - intros ->. simpl in Hdl. lia.
Qed.

(** C8. A valid batch (the precision of the transformation, one row per axis)
    is mapped to a batch of the same shape and precision, so with one output
    point per input point and none for the empty batch; each coordinate of the
    output is the input coordinate plus the displacement that the primitive
    returned for that axis and point. The transformation is one the constructor
    built from a control-point grid, with a configuration that the primitive
    accepts. *)
Theorem transform_points_batch DTYPE prim g ord md cv (h0 h : heap) self raw points :
  prim_arity prim →
  prim_accepts prim ord md cv →
  __init__ DTYPE g ord md cv h0 = (h, inr self) →
  h0 !! g = Some (Array raw) →
  control_grid raw →
  valid_batch DTYPE (nd_ndim raw - 1) points →
  ∃ comps displacement result,
    components (np_array raw DTYPE) = inr comps
    ∧ Forall2 (λ comp d,
         prim comp (scaled_batch DTYPE points (tail (nd_shape raw))) ord md cv = inr d)
        comps displacement
    ∧ _transform_points DTYPE prim self points h = (h, inr result)
    ∧ a2_nrows result = a2_nrows points
    ∧ a2_cols result = a2_cols points
    ∧ a2_dtype result = a2_dtype points
    ∧ wf_array2 result
    ∧ ∀ d i x, cell (a2_rows points) d i = Some x →
        ∃ dx, cell displacement d i = Some dx
              ∧ cell (a2_rows result) d i = Some (x + dx)%Q.
Proof.
  intros Har Hacc Hrun Hg Hrank Hvalid.
  destruct (transform_points_valid DTYPE prim g ord md cv h0 h self raw points
              Har Hacc Hrun Hg Hrank Hvalid)
    as (comps & ds & Hcomps & Hall & Hdl & Hdc & Hmap).
  destruct Hvalid as (Hdt & Hwf & Hrows).
  eexists comps, ds, _. split; [exact Hcomps|]. split; [exact Hall|].
  split; [exact Hmap|]. unfold a2_nrows, wf_array2 in *.
  cbn [a2_rows a2_cols a2_dtype].
  split; [rewrite length_zip_with; lia|]. split; [reflexivity|].
  split; [by symmetry|]. split; [by apply zip_plus_wf|].
  intros d i x Hx.
  destruct (cell_displacement _ _ _ d i x Hwf Hdc Hdl Hx) as [dx Hdx].
  exists dx. split; [exact Hdx|]. by rewrite cell_zip_plus, Hx, Hdx.
Qed.

Lemma transform_points_batch_witness :
  ∃ comps displacement result,
    components (np_array grid_scenario float32) = inr comps
    ∧ Forall2 (λ comp d,
         reference_map_coordinates comp
           (scaled_batch float32 (scenario_points float32) (tail (nd_shape grid_scenario)))
           1 "mirror" 0%Q = inr d)
        comps displacement
    ∧ _transform_points float32 reference_map_coordinates built_self
        (scenario_points float32) (built float32 grid_scenario 1 "mirror" 0%Q)
      = (built float32 grid_scenario 1 "mirror" 0%Q, inr result)
    ∧ a2_nrows result = a2_nrows (scenario_points float32)
    ∧ a2_cols result = a2_cols (scenario_points float32)
    ∧ a2_dtype result = a2_dtype (scenario_points float32)
    ∧ wf_array2 result
    ∧ ∀ d i x, cell (a2_rows (scenario_points float32)) d i = Some x →
        ∃ dx, cell displacement d i = Some dx
              ∧ cell (a2_rows result) d i = Some (x + dx)%Q.
Proof.
  apply (transform_points_batch float32 reference_map_coordinates 1%positive
           1 "mirror" 0%Q (caller_heap grid_scenario)
           (built float32 grid_scenario 1 "mirror" 0%Q) built_self grid_scenario
           (scenario_points float32)).
  - exact reference_arity.
  - apply reference_accepts; [right|]; reflexivity.
  - vm_compute. reflexivity.
  - reflexivity.
  - split; [split; [reflexivity | vm_compute; lia]|].
    split; [vm_compute; lia | repeat constructor].
  - split; [reflexivity|]. split; [|reflexivity].
    repeat constructor.
Defined.












(** Construction succeeds on a grid whose leading axis has length R - 1. *)
Lemma init_ok DTYPE g ord md cv (h0 : heap) raw n :
  h0 !! g = Some (Array raw) →
  wf_ndarray raw →
  head (nd_shape raw) = Some n →
  Z.of_nat n = Z.of_nat (nd_ndim raw) - 1 →
  ∃ h self, __init__ DTYPE g ord md cv h0 = (h, inr self).
Proof.
  intros Hg Hwf Hn Heq. rewrite init_run, Hg. cbn zeta.
  destruct (nd_shape raw) as [|n' rest] eqn:Hs; [discriminate|].
  simpl in Hn. injection Hn as ->.
  rewrite (py_is_small _ _ (rank_pred_small raw Hwf)).
  rewrite (proj2 (Z.eqb_eq _ _) Heq). eexists _, _. reflexivity.
Qed.

(** C3. The scenario: the grid of shape (2, 3, 3) with +0.1 along axis 0 and
    -0.1 along axis 1, order 1, mode [mirror]. The point (0.5, 0.5) is scaled to
    the node (1, 1) and mapped to (0.6, 0.4), for every primitive that is exact
    at the nodes for order 1 and mode [mirror]. *)
Theorem scenario_point DTYPE prim :
  prim_arity prim →
  prim_node_exact prim 1 "mirror" →
  prim_accepts prim 1 "mirror" 0%Q →
  (∃ scaled,
     broadcast2 Qmult (scenario_points DTYPE)
       (scale_column (np_array grid_scenario DTYPE) DTYPE) = inr scaled
     ∧ rows_eq (a2_rows scaled) [[1%Q]; [1%Q]])
  ∧ ∃ result,
      construct_and_map DTYPE prim grid_scenario 1 "mirror" 0%Q (scenario_points DTYPE)
        = inr result
      ∧ rows_eq (a2_rows result) [[6 # 10]; [4 # 10]].
Proof.
  intros Har Hnode Hacc.
  assert (Hvalid : valid_batch DTYPE (nd_ndim grid_scenario - 1) (scenario_points DTYPE)).
  { split; [reflexivity|]. split; [|reflexivity]. repeat constructor. }
  assert (Hf : scale_factor DTYPE 3 = inject_Z 2).
  { apply scale_factor_exact. destruct DTYPE; vm_compute; discriminate. }
  assert (Hsc : scaled_batch DTYPE (scenario_points DTYPE) (tail (nd_shape grid_scenario))
                = batch DTYPE 1 [[(1 # 2) * inject_Z 2]; [(1 # 2) * inject_Z 2]]%Q).
  { cbv [scaled_batch scenario_points batch a2_cols a2_rows grid_scenario raw_grid
         nd_shape tail scaled_rows zip_with map].
    by rewrite Hf. }
  split.
  - eexists. split.
    + apply scale_points; [apply Hvalid | reflexivity].
    + change (rows_eq (a2_rows (scaled_batch DTYPE (scenario_points DTYPE)
                                  (tail (nd_shape grid_scenario)))) [[1%Q]; [1%Q]]).
      rewrite Hsc. repeat constructor.
  - unfold construct_and_map.
    destruct (init_ok DTYPE 1%positive 1 "mirror" 0%Q (caller_heap grid_scenario)
                grid_scenario 2%nat) as (h & self & Hrun);
      [reflexivity | split; [reflexivity | vm_compute; lia] | reflexivity | reflexivity |].
    rewrite Hrun.
    destruct (transform_points_valid DTYPE prim 1%positive 1 "mirror" 0%Q
                (caller_heap grid_scenario) h self grid_scenario (scenario_points DTYPE)
                Har Hacc Hrun eq_refl) as (comps & ds & Hcomps & Hall & Hdl & Hdc & Hmap);
      [split; [split; [reflexivity | vm_compute; lia]|];
       split; [vm_compute; lia | repeat constructor]
      | exact Hvalid |].
    rewrite Hmap. cbn [snd]. eexists. split; [reflexivity|]. cbn [a2_rows].
    rewrite Hsc in Hall.
    injection Hcomps as <-.
    inversion Hall as [|c0 d0 ? ds0 Hd0 Hall0]; subst.
    inversion Hall0 as [|c1 d1 ? ds1 Hd1 Hall1]; subst.
    inversion Hall1; subst. clear Hall Hall0 Hall1.
    inversion Hdc as [|? ? Hl0 Hdc0]; subst. inversion Hdc0 as [|? ? Hl1 _]; subst.
    pose proof (Hnode _ _ _ _ 0%nat [1; 1]%nat Hd0) as H0.
    pose proof (Hnode _ _ _ _ 0%nat [1; 1]%nat Hd1) as H1.
    destruct d0 as [|q0 [|]]; try discriminate.
    destruct d1 as [|q1 [|]]; try discriminate.
    simpl in H0, H1 |- *.
    assert (Hat : at_node [(1 # 2) * inject_Z 2; (1 # 2) * inject_Z 2]%Q
                          [1; 1]%nat) by (repeat constructor).
    assert (Hin : in_bounds [3; 3]%nat [1; 1]%nat) by (repeat constructor).
    specialize (H0 ltac:(lia) ltac:(constructor) Hat Hin).
    specialize (H1 ltac:(lia) ltac:(constructor) Hat Hin).
    vm_compute in H0, H1.
    repeat constructor.
    + change (q0 == 1 # 10) in H0. rewrite H0. reflexivity.
    + change (q1 == -1 # 10) in H1. rewrite H1. reflexivity.
Qed.

Lemma scenario_point_witness :
  (∃ scaled,
     broadcast2 Qmult (scenario_points float32)
       (scale_column (np_array grid_scenario float32) float32) = inr scaled
     ∧ rows_eq (a2_rows scaled) [[1%Q]; [1%Q]])
  ∧ ∃ result,
      construct_and_map float32 reference_map_coordinates grid_scenario 1 "mirror" 0%Q
        (scenario_points float32) = inr result
      ∧ rows_eq (a2_rows result) [[6 # 10]; [4 # 10]].
Proof.
  apply (scenario_point float32 reference_map_coordinates).
  - exact reference_arity.
  - apply reference_node_exact.
  - apply reference_accepts; [right|]; reflexivity.
Defined.

(** C7. The constructor stores whatever order, mode and constant it is given:
    on a grid of the right shape it succeeds for all of them. When the order is
    negative or the mode is not one of the five, mapping a valid batch through a
    transformation with at least one axis raises the primitive's [RuntimeError]
    (the spec's ConfigError). *)
Theorem config_checked_at_mapping DTYPE prim g ord md cv (h0 : heap) raw n :
  prim_rejects prim →
  h0 !! g = Some (Array raw) →
  wf_ndarray raw →
  head (nd_shape raw) = Some n →
  Z.of_nat n = Z.of_nat (nd_ndim raw) - 1 →
  ∃ h self t,
    __init__ DTYPE g ord md cv h0 = (h, inr self)
    ∧ h !! self = Some (Transform t)
    ∧ bspline_order t = ord ∧ mode t = md ∧ cval t = cv
    ∧ (ord < 0 ∨ supported_mode md = false →
       (1 <= n)%nat →
       ∀ points, valid_batch DTYPE n points →
         ∃ msg, _transform_points DTYPE prim self points h
                = (h, inl (RuntimeError msg))).
Proof.
  intros Hrej Hg Hwf Hn Heq.
  destruct (init_ok DTYPE g ord md cv h0 raw n Hg Hwf Hn Heq) as (h & self & Hrun).
  destruct (init_transform _ _ _ _ _ _ _ _ Hrun)
    as (raw' & rest & t & Hg' & Hs & Hself & Ho & Hm & Hc & Hnd & Hp & _).
  rewrite Hg in Hg'. injection Hg' as <-.
  rewrite Hs in Hn. simpl in Hn. injection Hn as <-.
  exists h, self, t. repeat (split; [assumption|]).
  intros Hbad Hpos points Hvalid.
  destruct (components_of_copy DTYPE raw rest Hs) as (comps & Hcomps & Hlen & _).
  rewrite (transform_points_run DTYPE prim h self t (np_array raw DTYPE) points
             (length rest) rest comps Hself Hp Hs eq_refl Hvalid Hcomps).
  destruct comps as [|c0 comps]; [simpl in Hlen; lia|].
  destruct (Hrej c0 (scaled_batch DTYPE points rest) ord md cv Hbad) as [msg Hmsg].
  exists msg. rewrite Ho, Hm, Hc.
  unfold scaled_batch in Hmsg.
  by rewrite (sample_components_first_error _ _ _ _ _ _ _ _ Hmsg).
Qed.

Lemma config_checked_at_mapping_witness :
  ∃ h self t,
    __init__ float32 1%positive (-2) "bogus" 7%Q (caller_heap grid_scenario)
      = (h, inr self)
    ∧ h !! self = Some (Transform t)
    ∧ bspline_order t = -2 ∧ mode t = "bogus" ∧ cval t = 7%Q
    ∧ (-2 < 0 ∨ supported_mode "bogus" = false →
       (1 <= 2)%nat →
       ∀ points, valid_batch float32 2 points →
         ∃ msg, _transform_points float32 reference_map_coordinates self points h
                = (h, inl (RuntimeError msg))).
Proof.
  apply (config_checked_at_mapping float32 reference_map_coordinates 1%positive
           (-2) "bogus" 7%Q (caller_heap grid_scenario) grid_scenario 2%nat).
  - exact reference_rejects.
  - reflexivity.
  - split; [reflexivity | vm_compute; lia].
  - reflexivity.
  - reflexivity.
Defined.

(** A transformation without axes never calls the primitive, so a mode that
    the primitive would refuse goes unnoticed: construction from the empty
    rank-1 grid succeeds, and mapping the empty batch raises no
    [RuntimeError]. *)
Lemma no_axis_no_config_error :
  construct_and_map float64 reference_map_coordinates grid_empty 3 "bogus" 0%Q
    (batch float64 0 [])
  = inr (batch float64 0 []).
Proof. vm_compute. reflexivity. Qed.

(** ** The store during mapping *)

(** A mapping call returns the store it was given. *)
Lemma transform_points_store DTYPE prim self points (h : heap) :
  (_transform_points DTYPE prim self points h).1 = h.
Proof.
  unfold _transform_points, bind, load_transform, load_array, lift, raise, ret.
  destruct (negb (dtype_eqb (a2_dtype points) DTYPE)); [reflexivity|].
  destruct (h !! self) as [[a|t]|]; try reflexivity. cbn beta iota.
  destruct (h !! parameters t) as [[params|t']|]; try reflexivity. cbn beta iota.
  destruct (broadcast2 Qmult _ _); [reflexivity|].
  destruct (components params); [reflexivity|].
  destruct (sample_components _ _ _ _ _ _ _); [reflexivity|].
  destruct (broadcast2 Qplus _ _) as [e|result]; [reflexivity|].
  destruct (negb _); reflexivity.
Qed.

(** Its outcome depends on the store only through the transformation object
    and the array that [parameters] refers to. *)
Lemma transform_points_local DTYPE prim self points (h1 h2 : heap) :
  h1 !! self = h2 !! self →
  (∀ t, h1 !! self = Some (Transform t) → h1 !! parameters t = h2 !! parameters t) →
  (_transform_points DTYPE prim self points h1).2
  = (_transform_points DTYPE prim self points h2).2.
Proof.
  intros Hself Hparams.
  unfold _transform_points, bind, load_transform, load_array, lift, raise, ret.
  destruct (negb (dtype_eqb (a2_dtype points) DTYPE)); [reflexivity|].
  rewrite <- Hself.
  destruct (h1 !! self) as [[a|t]|] eqn:H1; try reflexivity. cbn beta iota.
  rewrite <- (Hparams t eq_refl).
  destruct (h1 !! parameters t) as [[params|t']|]; try reflexivity. cbn beta iota.
  destruct (broadcast2 Qmult _ _); [reflexivity|].
  destruct (components params); [reflexivity|].
  destruct (sample_components _ _ _ _ _ _ _); [reflexivity|].
  destruct (broadcast2 Qplus _ _) as [e|result]; [reflexivity|].
  destruct (negb _); reflexivity.
Qed.

Lemma transform_many_store DTYPE prim self batches (h : heap) :
  transform_many DTYPE prim self batches h = h.
Proof.
  revert h. induction batches as [|points batches IH]; intros h; simpl; [reflexivity|].
  by rewrite transform_points_store.
Qed.

(** C9. Construction stores a copy of the caller's array at a location of its
    own, and leaves the caller's array in place. Mapping calls, however many,
    return the store as it was, so the copy and the attributes of the
    transformation stay what they were. Whatever the caller later puts at the
    location of the original array, each mapping call has the outcome it would
    have had without that. *)
Theorem grid_owned DTYPE prim g ord md cv (h0 h : heap) self :
  __init__ DTYPE g ord md cv h0 = (h, inr self) →
  ∃ raw t,
    h0 !! g = Some (Array raw)
    ∧ h !! g = Some (Array raw)
    ∧ h !! self = Some (Transform t)
    ∧ bspline_order t = ord ∧ mode t = md ∧ cval t = cv
    ∧ parameters t ≠ g
    ∧ h0 !! parameters t = None
    ∧ h !! parameters t = Some (Array (np_array raw DTYPE))
    ∧ (∀ batches, transform_many DTYPE prim self batches h = h)
    ∧ (∀ o batches points,
         let h' := transform_many DTYPE prim self batches (<[g := o]> h) in
         h' !! self = Some (Transform t)
         ∧ h' !! parameters t = Some (Array (np_array raw DTYPE))
         ∧ (_transform_points DTYPE prim self points h').2
           = (_transform_points DTYPE prim self points h).2).
Proof.
  intros Hrun.
  destruct (init_transform _ _ _ _ _ _ _ _ Hrun)
    as (raw & rest & t & Hg & Hs & Hself & Ho & Hm & Hc & Hnd & Hp & Hp0 & Hself0 & Hg').
  assert (Hpg : parameters t ≠ g) by (intros Heq; rewrite Heq, Hg in Hp0; discriminate).
  assert (Hsg : self ≠ g) by (intros Heq; rewrite Heq, Hg in Hself0; discriminate).
  exists raw, t. repeat (split; [assumption|]).
  split; [intros batches; apply transform_many_store|].
  intros o batches points h'. subst h'. rewrite transform_many_store.
  rewrite !lookup_insert_ne by auto.
  split; [assumption|]. split; [assumption|].
  apply transform_points_local.
  - by rewrite lookup_insert_ne.
  - intros t' Ht'. rewrite lookup_insert_ne in Ht' by auto.
    rewrite Hself in Ht'. injection Ht' as <-. by rewrite lookup_insert_ne.
Qed.

Lemma grid_owned_witness :
  ∃ raw t,
    caller_heap grid_scenario !! 1%positive = Some (Array raw)
    ∧ built float32 grid_scenario 1 "mirror" 0%Q !! 1%positive = Some (Array raw)
    ∧ built float32 grid_scenario 1 "mirror" 0%Q !! built_self = Some (Transform t)
    ∧ bspline_order t = 1 ∧ mode t = "mirror" ∧ cval t = 0%Q
    ∧ parameters t ≠ 1%positive
    ∧ caller_heap grid_scenario !! parameters t = None
    ∧ built float32 grid_scenario 1 "mirror" 0%Q !! parameters t
      = Some (Array (np_array raw float32))
    ∧ (∀ batches,
         transform_many float32 reference_map_coordinates built_self batches
           (built float32 grid_scenario 1 "mirror" 0%Q)
         = built float32 grid_scenario 1 "mirror" 0%Q)
    ∧ (∀ o batches points,
         let h' := transform_many float32 reference_map_coordinates built_self batches
                     (<[1%positive := o]> (built float32 grid_scenario 1 "mirror" 0%Q)) in
         h' !! built_self = Some (Transform t)
         ∧ h' !! parameters t = Some (Array (np_array raw float32))
         ∧ (_transform_points float32 reference_map_coordinates built_self points h').2
           = (_transform_points float32 reference_map_coordinates built_self points
                (built float32 grid_scenario 1 "mirror" 0%Q)).2).
Proof.
  apply (grid_owned float32 reference_map_coordinates 1%positive 1 "mirror" 0%Q
           (caller_heap grid_scenario)).
  vm_compute. reflexivity.
Defined.

(** ** The summary string *)

(** X1. The summary of a transformation that the constructor built reports the
    number of spatial axes of the grid it was given and the number of control
    points along each, separated by "x"; producing it leaves the store as it
    was. *)
Theorem repr_of_constructed DTYPE g ord md cv (h0 h : heap) self raw :
  __init__ DTYPE g ord md cv h0 = (h, inr self) →
  h0 !! g = Some (Array raw) →
  __repr__ self h = (h, inr (summary (tail (nd_shape raw)))).
Proof.
  intros Hrun Hg.
  destruct (init_transform _ _ _ _ _ _ _ _ Hrun)
    as (raw' & rest & t & Hg' & Hs & Hself & _ & _ & _ & Hnd & Hp & _).
  rewrite Hg in Hg'. injection Hg' as <-.
  unfold __repr__, bind, load_transform, load_array, ret.
  rewrite Hself. cbn beta iota. rewrite Hp. cbn beta iota.
  unfold summary. cbn [np_array nd_shape]. rewrite Hs, Hnd. reflexivity.
Qed.

Lemma repr_of_constructed_witness :
  __repr__ built_self (built float32 grid_3x8x8x8 3 "mirror" 0%Q)
  = (built float32 grid_3x8x8x8 3 "mirror" 0%Q,
     inr "BSplineTransformation(3D, 8x8x8)").
Proof.
  apply (repr_of_constructed float32 1%positive 3 "mirror" 0%Q
           (caller_heap grid_3x8x8x8) (built float32 grid_3x8x8x8 3 "mirror" 0%Q)
           built_self grid_3x8x8x8).
  - vm_compute. reflexivity.
  - reflexivity.
Defined.

(** *** Decimal numerals inside the summary *)

Lemma append_inj_l (p a b : string) : p +:+ a = p +:+ b → a = b.
Proof. induction p as [|c p IH]; simpl; [done | intros [= H]; auto]. Qed.

Lemma uint_digits (u : Decimal.uint) : all_digits (NilEmpty.string_of_uint u) = true.
Proof. induction u; simpl; auto. Qed.

(** The numeral of a natural number: digits only, at least one. *)
Lemma str_of_nat_digits (n : nat) :
  all_digits (str_of_int (Z.of_nat n)) = true ∧ str_of_int (Z.of_nat n) ≠ "".
Proof.
  unfold str_of_int. destruct (Z.of_nat n) as [|p|p] eqn:Hz; [| |lia]; simpl.
  - split; [reflexivity | discriminate].
  - pose proof (DecimalPos.Unsigned.to_uint_nonnil p) as Hnil.
    unfold NilZero.string_of_uint.
    destruct (Pos.to_uint p) eqn:Hu; try contradiction;
      (split; [apply (uint_digits (_ u)) | discriminate]).
Qed.

Lemma str_of_nat_inj (a b : nat) :
  str_of_int (Z.of_nat a) = str_of_int (Z.of_nat b) → a = b.
Proof.
  unfold str_of_int. intros H.
  assert (Hn : ∀ z, Z.to_int z ≠ Decimal.Pos Decimal.Nil ∧ Z.to_int z ≠ Decimal.Neg Decimal.Nil).
  { intros [|p|p]; simpl; split; try discriminate; intros [= Hp];
      by apply DecimalPos.Unsigned.to_uint_nonnil in Hp. }
  apply (f_equal NilZero.int_of_string) in H.
  rewrite !NilZero.isi in H by apply Hn.
  injection H as H. apply DecimalZ.to_int_inj in H. lia.
Qed.

(** A run of digits ends at the first character that is not a digit. *)
Lemma digit_run (s s' : string) c c' r r' :
  all_digits s = true → all_digits s' = true →
  is_digit c = false → is_digit c' = false →
  s +:+ String c r = s' +:+ String c' r' →
  s = s' ∧ c = c' ∧ r = r'.
Proof.
  revert s'. induction s as [|d s IH]; intros [|d' s'] Hs Hs' Hc Hc' H; simpl in *.
  - by injection H as -> ->.
  - injection H as -> _. apply andb_true_iff in Hs' as [Hd' _]. congruence.
  - injection H as -> _. apply andb_true_iff in Hs as [Hd _]. congruence.
  - injection H as -> H. apply andb_true_iff in Hs as [_ Hs].
    apply andb_true_iff in Hs' as [_ Hs'].
    destruct (IH s' Hs Hs' Hc Hc' H) as (-> & -> & ->). done.
Qed.

Lemma string_app_assoc (a b c : string) : (a +:+ b) +:+ c = a +:+ (b +:+ c).
Proof.
  induction a as [|x a IH]; [reflexivity|].
  change (String x ((a +:+ b) +:+ c) = String x (a +:+ (b +:+ c))). by rewrite IH.
Qed.

(** The resolutions joined by "x" and closed by a parenthesis: after the first
    numeral comes either the parenthesis or an "x" and the rest. *)
Lemma resolution_cons (s : string) (ss : list string) :
  String.concat "x" (s :: ss) +:+ ")"
  = s +:+ match ss with
          | [] => ")"
          | _ => "x" +:+ (String.concat "x" ss +:+ ")")
          end.
Proof.
  destruct ss as [|s' ss]; [reflexivity|].
  change (String.concat "x" (s :: s' :: ss))
    with (s +:+ ("x" +:+ String.concat "x" (s' :: ss))).
  by rewrite !string_app_assoc.
Qed.

Lemma resolution_inj (l l' : list nat) :
  String.concat "x" (map (λ x : nat, str_of_int (Z.of_nat x)) l) +:+ ")"
  = String.concat "x" (map (λ x : nat, str_of_int (Z.of_nat x)) l') +:+ ")" →
  l = l'.
Proof.
  revert l'. induction l as [|a l IH]; intros [|b l'] H.
  - reflexivity.
  - exfalso. rewrite map_cons, resolution_cons in H.
    destruct (str_of_nat_digits b) as [Hd Hne].
    destruct (str_of_int (Z.of_nat b)) as [|c r]; [done|].
    simpl in H, Hd. injection H as <- _.
    apply andb_true_iff in Hd as [Hd _]. vm_compute in Hd. discriminate.
  - exfalso. rewrite map_cons, resolution_cons in H.
    destruct (str_of_nat_digits a) as [Hd Hne].
    destruct (str_of_int (Z.of_nat a)) as [|c r]; [done|].
    simpl in H, Hd. injection H as -> _.
    apply andb_true_iff in Hd as [Hd _]. vm_compute in Hd. discriminate.
  - rewrite !map_cons, !resolution_cons in H.
    destruct (str_of_nat_digits a) as [Ha _], (str_of_nat_digits b) as [Hb _].
    destruct l as [|a1 l], l' as [|b1 l']; cbn [map] in H; cbn [String.append] in H.
    + apply digit_run in H as (H & _ & _); auto.
      apply str_of_nat_inj in H. by subst.
    + apply digit_run in H as (_ & H & _); auto. discriminate.
    + apply digit_run in H as (_ & H & _); auto. discriminate.
    + apply digit_run in H as (H & _ & Hrest); auto.
      apply str_of_nat_inj in H. subst b. f_equal. apply IH. exact Hrest.
Qed.

(** X2. The summary identifies the resolution of the grid: two transformations
    that the constructor built, in whatever stores, have the same summary only
    if their grids have the same shape. *)
Theorem repr_determines_shape DTYPE1 DTYPE2 g1 g2 ord1 ord2 md1 md2 cv1 cv2
    (h01 h1 h02 h2 : heap) s1 s2 raw1 raw2 :
  __init__ DTYPE1 g1 ord1 md1 cv1 h01 = (h1, inr s1) →
  h01 !! g1 = Some (Array raw1) →
  __init__ DTYPE2 g2 ord2 md2 cv2 h02 = (h2, inr s2) →
  h02 !! g2 = Some (Array raw2) →
  (__repr__ s1 h1).2 = (__repr__ s2 h2).2 →
  nd_shape raw1 = nd_shape raw2.
Proof.
  intros Hrun1 Hg1 Hrun2 Hg2 Hrepr.
  rewrite (repr_of_constructed _ _ _ _ _ _ _ _ _ Hrun1 Hg1) in Hrepr.
  rewrite (repr_of_constructed _ _ _ _ _ _ _ _ _ Hrun2 Hg2) in Hrepr.
  destruct (init_transform _ _ _ _ _ _ _ _ Hrun1) as (r1 & rest1 & _ & Hr1 & Hs1 & _).
  destruct (init_transform _ _ _ _ _ _ _ _ Hrun2) as (r2 & rest2 & _ & Hr2 & Hs2 & _).
  rewrite Hg1 in Hr1. injection Hr1 as <-. rewrite Hg2 in Hr2. injection Hr2 as <-.
  rewrite Hs1, Hs2 in *. simpl tail in Hrepr. simpl in Hrepr.
  injection Hrepr as Hrepr. unfold summary in Hrepr.
  apply String.app_inj in Hrepr. cbn [String.append] in Hrepr.
  destruct (str_of_nat_digits (length rest1)) as [Hd1 _].
  destruct (str_of_nat_digits (length rest2)) as [Hd2 _].
  apply digit_run in Hrepr as (_ & _ & Hrest); auto.
  injection Hrest as Hrest. apply resolution_inj in Hrest. by subst.
Qed.

Lemma repr_determines_shape_witness :
  nd_shape grid_scenario = nd_shape grid_zero_2x3x3.
Proof.
  apply (repr_determines_shape float32 float64 1%positive 1%positive
           1 3 "mirror" "wrap" 0%Q 5%Q
           (caller_heap grid_scenario) (built float32 grid_scenario 1 "mirror" 0%Q)
           (caller_heap grid_zero_2x3x3) (built float64 grid_zero_2x3x3 3 "wrap" 5%Q)
           built_self built_self).
  - vm_compute. reflexivity.
  - reflexivity.
  - vm_compute. reflexivity.
  - reflexivity.
  - vm_compute. reflexivity.
Defined.

(** ** Construction and the rest of the store *)

(** A location that was free is not one that holds an object. *)
Lemma fresh_ne (h : heap) l o : h !! l = Some o → l ≠ fresh (dom h).
Proof. intros Hl ->. rewrite fresh_not_in in Hl. discriminate. Qed.

(** The constructor only adds objects. *)
Lemma init_store_mono DTYPE g ord md cv (h0 : heap) l o :
  h0 !! l = Some o → (__init__ DTYPE g ord md cv h0).1 !! l = Some o.
Proof.
  intros Hl. rewrite init_run.
  destruct (h0 !! g) as [[raw|t]|]; try exact Hl. cbn zeta.
  assert (H1 : <[fresh (dom h0) := Array (np_array raw DTYPE)]> h0 !! l = Some o).
  { rewrite lookup_insert_ne; [exact Hl | symmetry; by eapply fresh_ne]. }
  destruct (nd_shape raw) as [|n rest]; [exact H1|].
  destruct (py_is _ _); [|exact H1]. cbn [fst].
  rewrite lookup_insert_ne; [exact H1 | symmetry; by eapply fresh_ne].
Qed.

(** X3. Whatever its outcome, a call of the constructor changes and removes no
    object that the store already holds; and when it raises, it leaves no
    transformation object behind: every transformation in the store was there
    before. *)
Theorem init_preserves_store DTYPE g ord md cv (h0 : heap) l o :
  h0 !! l = Some o →
  (__init__ DTYPE g ord md cv h0).1 !! l = Some o
  ∧ ∀ e, (__init__ DTYPE g ord md cv h0).2 = inl e →
      ∀ l' t, (__init__ DTYPE g ord md cv h0).1 !! l' = Some (Transform t) →
              h0 !! l' = Some (Transform t).
Proof.
  intros Hl. split; [by apply init_store_mono|].
  intros e He l' t. rewrite init_run in *.
  destruct (h0 !! g) as [[raw|t']|]; try done. cbn zeta in *.
  assert (H1 : <[fresh (dom h0) := Array (np_array raw DTYPE)]> h0 !! l'
               = Some (Transform t) → h0 !! l' = Some (Transform t)).
  { rewrite lookup_insert. case_decide; [discriminate | done]. }
  destruct (nd_shape raw) as [|n rest]; [exact H1|].
  destruct (py_is _ _); [discriminate | exact H1].
Qed.

Lemma init_preserves_store_witness :
  (__init__ float32 1%positive 3 "mirror" 0%Q (caller_heap grid_3x2x2)).1 !! 1%positive
    = Some (Array grid_3x2x2)
  ∧ ∀ e, (__init__ float32 1%positive 3 "mirror" 0%Q (caller_heap grid_3x2x2)).2 = inl e →
      ∀ l' t, (__init__ float32 1%positive 3 "mirror" 0%Q (caller_heap grid_3x2x2)).1 !! l'
                = Some (Transform t) →
              caller_heap grid_3x2x2 !! l' = Some (Transform t).
Proof.
  apply (init_preserves_store float32 1%positive 3 "mirror" 0%Q (caller_heap grid_3x2x2)).
  reflexivity.
Defined.

(** X4. A grid of rank 0 has no leading axis: the constructor raises
    [IndexError] from [grid.shape[0]], not the [ValueError] of the shape check,
    whatever the configuration; the store has gained the converted copy and
    nothing else. *)
Theorem init_scalar_grid DTYPE g ord md cv (h0 : heap) raw :
  h0 !! g = Some (Array raw) →
  nd_shape raw = [] →
  ∃ p, h0 !! p = None
       ∧ __init__ DTYPE g ord md cv h0
         = (<[p := Array (np_array raw DTYPE)]> h0,
            inl (IndexError "tuple index out of range")).
Proof.
  intros Hg Hs. exists (fresh (dom h0)). split; [apply fresh_not_in|].
  rewrite init_run, Hg. cbn zeta. by rewrite Hs.
Qed.

Lemma init_scalar_grid_witness :
  ∃ p, caller_heap grid_scalar !! p = None
       ∧ __init__ float32 1%positive 3 "mirror" 0%Q (caller_heap grid_scalar)
         = (<[p := Array (np_array grid_scalar float32)]> (caller_heap grid_scalar),
            inl (IndexError "tuple index out of range")).
Proof.
  apply (init_scalar_grid float32 1%positive 3 "mirror" 0%Q (caller_heap grid_scalar)
           grid_scalar); reflexivity.
Defined.

(** X5. Two transformations built from one array do not share their
    parameters: each has a copy at a location of its own, and the outcome of
    mapping through the first is the same before and after the second was
    built. *)
Theorem two_transformations_independent DTYPE prim g ord1 md1 cv1 ord2 md2 cv2
    (h0 h1 h2 : heap) s1 s2 :
  __init__ DTYPE g ord1 md1 cv1 h0 = (h1, inr s1) →
  __init__ DTYPE g ord2 md2 cv2 h1 = (h2, inr s2) →
  ∃ raw t1 t2,
    h0 !! g = Some (Array raw)
    ∧ h2 !! s1 = Some (Transform t1)
    ∧ h2 !! s2 = Some (Transform t2)
    ∧ s1 ≠ s2
    ∧ parameters t1 ≠ parameters t2
    ∧ h2 !! parameters t1 = Some (Array (np_array raw DTYPE))
    ∧ h2 !! parameters t2 = Some (Array (np_array raw DTYPE))
    ∧ ∀ points, (_transform_points DTYPE prim s1 points h2).2
                = (_transform_points DTYPE prim s1 points h1).2.
Proof.
  intros Hrun1 Hrun2.
  destruct (init_transform _ _ _ _ _ _ _ _ Hrun1)
    as (raw & rest & t1 & Hg & Hs & Hself1 & _ & _ & _ & _ & Hp1 & _ & _ & Hg1).
  destruct (init_transform _ _ _ _ _ _ _ _ Hrun2)
    as (raw' & rest' & t2 & Hg' & _ & Hself2 & _ & _ & _ & _ & Hp2 & Hp2' & Hself2' & _).
  rewrite Hg1 in Hg'. injection Hg' as <-.
  pose proof (init_store_mono DTYPE g ord2 md2 cv2 h1) as Hmono.
  rewrite Hrun2 in Hmono. cbn [fst] in Hmono.
  exists raw, t1, t2. split; [exact Hg|].
  split; [by apply Hmono|]. split; [exact Hself2|].
  split; [intros ->; rewrite Hself1 in Hself2'; discriminate|].
  split; [intros Heq; rewrite Heq, Hp2' in Hp1; discriminate|].
  split; [by apply Hmono|]. split; [exact Hp2|].
  intros points. apply transform_points_local.
  - rewrite Hself1. by apply Hmono.
  - intros t Ht. rewrite (Hmono _ _ Hself1) in Ht. injection Ht as <-.
    rewrite Hp1. by apply Hmono.
Qed.

Lemma two_transformations_independent_witness :
  ∃ raw t1 t2,
    caller_heap grid_scenario !! 1%positive = Some (Array raw)
    ∧ (__init__ float32 1%positive 3 "wrap" 0%Q
         (built float32 grid_scenario 1 "mirror" 0%Q)).1 !! built_self = Some (Transform t1)
    ∧ (__init__ float32 1%positive 3 "wrap" 0%Q
         (built float32 grid_scenario 1 "mirror" 0%Q)).1 !! 5%positive = Some (Transform t2)
    ∧ built_self ≠ 5%positive
    ∧ parameters t1 ≠ parameters t2
    ∧ (__init__ float32 1%positive 3 "wrap" 0%Q
         (built float32 grid_scenario 1 "mirror" 0%Q)).1 !! parameters t1
      = Some (Array (np_array raw float32))
    ∧ (__init__ float32 1%positive 3 "wrap" 0%Q
         (built float32 grid_scenario 1 "mirror" 0%Q)).1 !! parameters t2
      = Some (Array (np_array raw float32))
    ∧ ∀ points,
        (_transform_points float32 reference_map_coordinates built_self points
           (__init__ float32 1%positive 3 "wrap" 0%Q
              (built float32 grid_scenario 1 "mirror" 0%Q)).1).2
        = (_transform_points float32 reference_map_coordinates built_self points
             (built float32 grid_scenario 1 "mirror" 0%Q)).2.
Proof.
  apply (two_transformations_independent float32 reference_map_coordinates 1%positive
           1 "mirror" 0%Q 3 "wrap" 0%Q (caller_heap grid_scenario)).
  - vm_compute. reflexivity.
  - vm_compute. reflexivity.
Defined.

(** ** Mapping batches of other shapes *)

(** One mapping call, for a batch of the transformation's precision and of any
    shape. *)
Lemma transform_points_unfold DTYPE prim (h : heap) self t params points :
  h !! self = Some (Transform t) →
  h !! parameters t = Some (Array params) →
  a2_dtype points = DTYPE →
  _transform_points DTYPE prim self points h =
    (h, match broadcast2 Qmult points (scale_column params DTYPE) with
        | inl e => inl e
        | inr scaled =>
            match components params with
            | inl e => inl e
            | inr comps =>
                match sample_components prim comps scaled
                        (bspline_order t) (mode t) (cval t) [] with
                | inl e => inl e
                | inr ds =>
                    match broadcast2 Qplus points
                            (np_array_rows (nd_dtype params) ds) with
                    | inl e => inl e
                    | inr result =>
                        if negb (dtype_eqb (a2_dtype result) DTYPE)
                        then inl AssertionError else inr result
                    end
                end
            end
        end).
Proof.
  intros Hself Hp Hdt.
  unfold _transform_points. rewrite Hdt, dtype_eqb_refl.
  unfold bind, load_transform, load_array, lift, raise, ret.
  cbn beta iota delta [negb]. rewrite Hself. cbn beta iota. rewrite Hp. cbn beta iota.
  destruct (broadcast2 Qmult _ _) as [e|scaled]; [reflexivity|].
  destruct (components params) as [e|comps]; [reflexivity|].
  destruct (sample_components _ _ _ _ _ _ _) as [e|ds]; [reflexivity|].
  destruct (broadcast2 Qplus _ _) as [e|result]; [reflexivity|].
  destruct (negb _); reflexivity.
Qed.

Lemma broadcast_dim_none a b :
  a ≠ b → a ≠ 1%nat → b ≠ 1%nat → broadcast_dim a b = None.
Proof.
  intros Hab Ha Hb. unfold broadcast_dim.
  destruct (Nat.eqb_spec a b); [done|].
  destruct (Nat.eqb_spec a 1); [done|].
  destruct (Nat.eqb_spec b 1); done.
Qed.

(** X6. A batch whose number of rows is neither the number of axes nor 1, for
    a transformation with other than one axis, cannot be scaled: the mapping
    raises numpy's broadcasting [ValueError] before the primitive is called,
    whatever the primitive and the configuration. *)
Theorem row_mismatch_raises DTYPE prim g ord md cv (h0 h : heap) self raw points :
  __init__ DTYPE g ord md cv h0 = (h, inr self) →
  h0 !! g = Some (Array raw) →
  a2_dtype points = DTYPE →
  a2_nrows points ≠ (nd_ndim raw - 1)%nat →
  a2_nrows points ≠ 1%nat →
  (nd_ndim raw - 1)%nat ≠ 1%nat →
  _transform_points DTYPE prim self points h
  = (h, inl (ValueError "operands could not be broadcast together")).
Proof.
  intros Hrun Hg Hdt Hrows Hone Hk.
  destruct (init_transform _ _ _ _ _ _ _ _ Hrun)
    as (raw' & rest & t & Hg' & Hs & Hself & _ & _ & _ & _ & Hp & _).
  rewrite Hg in Hg'. injection Hg' as <-.
  rewrite (transform_points_unfold DTYPE prim h self t _ points Hself Hp Hdt).
  unfold broadcast2 at 1. unfold a2_nrows at 2. cbn [scale_column a2_rows np_array nd_shape].
  unfold nd_ndim in Hrows, Hk. rewrite Hs in *. simpl in Hrows, Hk.
  rewrite Nat.sub_0_r in Hrows, Hk. simpl tail.
  rewrite length_map, broadcast_dim_none by assumption. reflexivity.
Qed.

Lemma row_mismatch_raises_witness :
  _transform_points float32 reference_map_coordinates built_self
    (batch float32 1 [[1 # 2]; [1 # 2]; [1 # 2]]) (built float32 grid_scenario 1 "mirror" 0%Q)
  = (built float32 grid_scenario 1 "mirror" 0%Q,
     inl (ValueError "operands could not be broadcast together")).
Proof.
  apply (row_mismatch_raises float32 reference_map_coordinates 1%positive 1 "mirror" 0%Q
           (caller_heap grid_scenario) (built float32 grid_scenario 1 "mirror" 0%Q)
           built_self grid_scenario).
  - vm_compute. reflexivity.
  - reflexivity.
  - reflexivity.
  - vm_compute. lia.
  - vm_compute. lia.
  - vm_compute. lia.
Defined.

(** X9. A transformation built from the rank-1 grid of length 0 has no axis and
    no component. Mapping a batch without rows through it raises the
    broadcasting [ValueError] when the batch has two or more columns; otherwise
    the sum with the empty [float64] displacement is the empty [float64] array,
    which is returned when [DTYPE] is [float64] and fails the closing assertion
    when it is not. *)
Theorem no_axis_mapping DTYPE prim g ord md cv (h0 h : heap) self dt points :
  h0 !! g = Some (Array {| nd_dtype := dt; nd_shape := [0%nat]; nd_data := [] |}) →
  __init__ DTYPE g ord md cv h0 = (h, inr self) →
  a2_dtype points = DTYPE →
  a2_rows points = [] →
  _transform_points DTYPE prim self points h
  = (h, if (2 <=? a2_cols points)%nat
        then inl (ValueError "operands could not be broadcast together")
        else if dtype_eqb DTYPE float64
             then inr {| a2_dtype := float64; a2_cols := 0; a2_rows := [] |}
             else inl AssertionError).
Proof.
  intros Hg Hrun Hdt Hrows.
  destruct (init_transform _ _ _ _ _ _ _ _ Hrun)
    as (raw' & rest & t & Hg' & Hs & Hself & _ & _ & _ & _ & Hp & _).
  rewrite Hg in Hg'. injection Hg' as <-.
  rewrite (transform_points_unfold DTYPE prim h self t _ points Hself Hp Hdt).
  unfold broadcast2, a2_nrows, components.
  cbn [scale_column a2_rows a2_cols a2_dtype np_array nd_shape nd_dtype nd_data tail map
       length seq sample_components np_array_rows].
  rewrite Hrows, Hdt. cbn [length]. rewrite broadcast_dim_one.
  cbn [broadcast_dim Nat.eqb stretch zip_with repeat length].
  destruct (a2_cols points) as [|[|c]]; cbn [broadcast_dim Nat.eqb Nat.leb];
    destruct DTYPE; reflexivity.
Qed.

Lemma no_axis_mapping_witness :
  _transform_points float32 reference_map_coordinates built_self (batch float32 1 [])
    (built float32 grid_empty 3 "mirror" 0%Q)
  = (built float32 grid_empty 3 "mirror" 0%Q,
     if (2 <=? a2_cols (batch float32 1 []))%nat
     then inl (ValueError "operands could not be broadcast together")
     else if dtype_eqb float32 float64
          then inr {| a2_dtype := float64; a2_cols := 0; a2_rows := [] |}
          else inl AssertionError).
Proof.
  apply (no_axis_mapping float32 reference_map_coordinates 1%positive 3 "mirror" 0%Q
           (caller_heap grid_empty) (built float32 grid_empty 3 "mirror" 0%Q)
           built_self float64).
  - reflexivity.
  - vm_compute. reflexivity.
  - reflexivity.
  - reflexivity.
Defined.

Lemma broadcast_dim_one_l k : k ≠ 1%nat → broadcast_dim 1 k = Some k.
Proof.
  intros Hk. unfold broadcast_dim. destruct (Nat.eqb_spec 1 k); [by subst|]. reflexivity.
Qed.

Lemma zip_with_repeat_l {A B C} (f : A → B → C) (x : A) (l : list B) :
  zip_with f (repeat x (length l)) l = map (f x) l.
Proof. induction l as [|y l IH]; simpl; [reflexivity | by rewrite IH]. Qed.

(** The scaling step on a batch of one row, for two or more axes: the row is
    used for every axis. *)
Lemma scale_single_row DTYPE params points row :
  a2_rows points = [row] →
  length row = a2_cols points →
  length (tail (nd_shape params)) ≠ 1%nat →
  broadcast2 Qmult points (scale_column params DTYPE)
  = inr {| a2_dtype := result_type (a2_dtype points) DTYPE;
           a2_cols := a2_cols points;
           a2_rows := map (λ n : nat, map (λ x, (x * scale_factor DTYPE n)%Q) row)
                          (tail (nd_shape params)) |}.
Proof.
  intros Hrows Hlen Hk. unfold broadcast2, scale_column, a2_nrows. cbn [a2_rows a2_cols a2_dtype].
  rewrite Hrows, length_map. cbn [length].
  rewrite (broadcast_dim_one_l _ Hk), broadcast_dim_one. do 2 f_equal.
  cbn [stretch]. rewrite (stretch_same (map _ _)) by (by rewrite length_map).
  rewrite <- (length_map (λ n : nat, [scale_factor DTYPE n]) (tail (nd_shape params))).
  rewrite zip_with_repeat_l, map_map. apply map_ext. intros n.
  rewrite (stretch_same row) by assumption. cbn [stretch].
  rewrite <- Hlen. apply zip_with_repeat_r.
Qed.

(** The addition of the displacement to a batch of one row. *)
Lemma add_displacement_single_row dt points row ds :
  a2_rows points = [row] →
  length row = a2_cols points →
  length ds ≠ 1%nat →
  ds ≠ [] →
  Forall (λ d, length d = a2_cols points) ds →
  broadcast2 Qplus points (np_array_rows dt ds)
  = inr {| a2_dtype := result_type (a2_dtype points) dt;
           a2_cols := a2_cols points;
           a2_rows := map (λ d, zip_with Qplus row d) ds |}.
Proof.
  intros Hrows Hlen Hk Hne Hds. destruct ds as [|d0 ds0]; [contradiction|].
  unfold broadcast2, np_array_rows, a2_nrows. cbn [a2_rows a2_cols a2_dtype].
  rewrite Hrows.
  change (length [row]) with 1%nat.
  rewrite (broadcast_dim_one_l _ Hk).
  rewrite (Forall_inv Hds), broadcast_dim_same. do 2 f_equal.
  rewrite (stretch_same (d0 :: ds0)) by reflexivity.
  change (stretch (length (d0 :: ds0)) [row]) with (repeat row (length (d0 :: ds0))).
  rewrite zip_with_repeat_l. apply Forall_fmap_ext_1.
  eapply Forall_impl; [exact Hds|]. intros d Hd. cbn beta.
  by rewrite (stretch_same row), (stretch_same d).
Qed.

(** X7. A batch of a single row is not refused by a transformation with two
    or more axes: numpy broadcasts it. The one row is scaled once per axis, the
    primitive samples every component at these coordinates, and the result has
    one row per axis, each the given row plus the displacement of that axis. *)
Theorem single_row_broadcast DTYPE prim g ord md cv (h0 h : heap) self raw points row :
  prim_arity prim →
  prim_accepts prim ord md cv →
  __init__ DTYPE g ord md cv h0 = (h, inr self) →
  h0 !! g = Some (Array raw) →
  control_grid raw →
  (3 <= nd_ndim raw)%nat →
  a2_dtype points = DTYPE →
  a2_rows points = [row] →
  length row = a2_cols points →
  ∃ comps displacement,
    components (np_array raw DTYPE) = inr comps
    ∧ Forall2 (λ comp d,
         prim comp {| a2_dtype := DTYPE; a2_cols := a2_cols points;
                      a2_rows := map (λ n : nat,
                                        map (λ x, (x * scale_factor DTYPE n)%Q) row)
                                     (tail (nd_shape raw)) |}
              ord md cv = inr d) comps displacement
    ∧ length displacement = (nd_ndim raw - 1)%nat
    ∧ _transform_points DTYPE prim self points h
      = (h, inr {| a2_dtype := DTYPE; a2_cols := a2_cols points;
                   a2_rows := map (λ d, zip_with Qplus row d) displacement |}).
Proof.
  intros Har Hacc Hrun Hg (Hwfraw & _ & Haxes) Hrank Hdt Hrows Hlen.
  destruct (init_transform _ _ _ _ _ _ _ _ Hrun)
    as (raw' & rest & t & Hg' & Hs & Hself & Ho & Hm & Hc & _ & Hp & _).
  rewrite Hg in Hg'. injection Hg' as <-.
  unfold nd_ndim in *. rewrite Hs in *. simpl in Hrank. simpl tail in *.
  replace (length (length rest :: rest) - 1)%nat with (length rest) by (simpl; lia).
  destruct (components_of_copy DTYPE raw rest Hs) as (comps & Hcomps & Hclen & Hshape).
  rewrite (transform_points_unfold DTYPE prim h self t _ points Hself Hp Hdt).
  rewrite scale_single_row with (row := row);
    [|assumption|assumption|cbn [np_array nd_shape]; rewrite Hs; simpl; lia].
  cbn [np_array nd_shape nd_dtype]. rewrite Hs, Hdt, result_type_same. simpl tail.
  change (components _) with (components (np_array raw DTYPE)). rewrite Hcomps.
  rewrite Ho, Hm, Hc.
  set (scaled := {| a2_dtype := DTYPE; a2_cols := a2_cols points;
                    a2_rows := map _ rest |}).
  destruct (sample_components_total prim comps scaled ord md cv) as [ds Hds].
  { eapply Forall_impl; [exact Hshape|]. intros c (Hcs & _ & Hcwf). apply Hacc.
    - by apply Hcwf.
    - unfold nd_ndim. rewrite Hcs. lia.
    - by rewrite Hcs.
    - unfold wf_array2, scaled. cbn [a2_rows a2_cols].
      apply Forall_fmap, Forall_true. intros n. cbn. by rewrite length_map.
    - unfold nd_ndim, a2_nrows, scaled. cbn [a2_rows]. by rewrite Hcs, length_map. }
  rewrite Hds.
  pose proof (proj1 (sample_components_ok _ _ _ _ _ _ _) Hds) as Hall.
  assert (Hdl : length ds = length rest).
  { rewrite <- (Forall2_length _ _ _ Hall). exact Hclen. }
  assert (Hdc : Forall (λ d, length d = a2_cols points) ds).
  { apply Forall_forall. intros d Hd.
    apply list_elem_of_lookup in Hd as [k Hk].
    destruct (Forall2_lookup_r _ _ _ _ _ Hall Hk) as (c & _ & Hcd).
    apply Har in Hcd. exact Hcd. }
  rewrite add_displacement_single_row with (row := row); auto;
    [|lia|intros ->; simpl in Hdl; lia].
  rewrite Hdt, result_type_same. cbn [a2_dtype]. rewrite dtype_eqb_refl. cbn [negb].
  exists comps, ds. auto.
Qed.

Lemma single_row_broadcast_witness :
  ∃ comps displacement,
    components (np_array grid_scenario float32) = inr comps
    ∧ Forall2 (λ comp d,
         reference_map_coordinates comp
           {| a2_dtype := float32; a2_cols := a2_cols (batch float32 2 [[1 # 2; 1 # 4]]);
              a2_rows := map (λ n : nat,
                                map (λ x, (x * scale_factor float32 n)%Q) [1 # 2; 1 # 4])
                             (tail (nd_shape grid_scenario)) |}
           1 "mirror" 0%Q = inr d) comps displacement
    ∧ length displacement = (nd_ndim grid_scenario - 1)%nat
    ∧ _transform_points float32 reference_map_coordinates built_self
        (batch float32 2 [[1 # 2; 1 # 4]]) (built float32 grid_scenario 1 "mirror" 0%Q)
      = (built float32 grid_scenario 1 "mirror" 0%Q,
         inr {| a2_dtype := float32; a2_cols := a2_cols (batch float32 2 [[1 # 2; 1 # 4]]);
                a2_rows := map (λ d, zip_with Qplus [1 # 2; 1 # 4] d) displacement |}).
Proof.
  apply (single_row_broadcast float32 reference_map_coordinates 1%positive 1 "mirror" 0%Q
           (caller_heap grid_scenario) (built float32 grid_scenario 1 "mirror" 0%Q)
           built_self grid_scenario (batch float32 2 [[1 # 2; 1 # 4]]) [1 # 2; 1 # 4]).
  - exact reference_arity.
  - apply reference_accepts; [right|]; reflexivity.
  - vm_compute. reflexivity.
  - reflexivity.
  - split; [split; [reflexivity | vm_compute; lia]|].
    split; [vm_compute; lia | repeat constructor].
  - vm_compute. lia.
  - reflexivity.
  - reflexivity.
  - reflexivity.
Defined.

(** ** Errors of the primitive and the closing assertion *)

Lemma sample_components_stops prim pre c post coords order mode cval e :
  Forall (λ c', ∃ d, prim c' coords order mode cval = inr d) pre →
  prim c coords order mode cval = inl e →
  sample_components prim (pre ++ c :: post) coords order mode cval [] = inl e.
Proof.
  intros Hpre Hc. induction Hpre as [|c' pre [d Hd] _ IH]; simpl.
  - by rewrite Hc.
  - rewrite Hd, sample_components_acc, IH. reflexivity.
Qed.

(** An error of the loop is an error of a call of the primitive. *)
Lemma sample_components_error prim comps coords order mode cval acc e :
  sample_components prim comps coords order mode cval acc = inl e →
  ∃ c, c ∈ comps ∧ prim c coords order mode cval = inl e.
Proof.
  revert acc. induction comps as [|c comps IH]; intros acc; simpl; [discriminate|].
  destruct (prim c coords order mode cval) as [e'|d] eqn:Hc.
  - intros [= ->]. exists c. split; [left | exact Hc].
  - intros H. destruct (IH _ H) as (c' & Hin & Hc'). exists c'. split; [by right | exact Hc'].
Qed.

(** X8. An exception of the primitive is the exception of the mapping: when
    the primitive returns for the components before some component and raises
    on that one, mapping a valid batch raises the same exception, and the
    store is unchanged. *)
Theorem primitive_error_propagates DTYPE prim g ord md cv (h0 h : heap) self raw
    points pre c post e :
  __init__ DTYPE g ord md cv h0 = (h, inr self) →
  h0 !! g = Some (Array raw) →
  valid_batch DTYPE (nd_ndim raw - 1) points →
  components (np_array raw DTYPE) = inr (pre ++ c :: post) →
  Forall (λ c', ∃ d, prim c' (scaled_batch DTYPE points (tail (nd_shape raw)))
                          ord md cv = inr d) pre →
  prim c (scaled_batch DTYPE points (tail (nd_shape raw))) ord md cv = inl e →
  _transform_points DTYPE prim self points h = (h, inl e).
Proof.
  intros Hrun Hg Hvalid Hcomps Hpre Hc.
  destruct (init_transform _ _ _ _ _ _ _ _ Hrun)
    as (raw' & rest & t & Hg' & Hs & Hself & Ho & Hm & Hcv & _ & Hp & _).
  rewrite Hg in Hg'. injection Hg' as <-.
  assert (Hn : (nd_ndim raw - 1)%nat = length rest).
  { unfold nd_ndim. rewrite Hs. simpl. lia. }
  rewrite Hn in Hvalid. rewrite Hs in Hpre, Hc. simpl tail in Hpre, Hc.
  rewrite (transform_points_run DTYPE prim h self t (np_array raw DTYPE) points
             (length rest) rest _ Hself Hp Hs eq_refl Hvalid Hcomps).
  rewrite Ho, Hm, Hcv.
  change {| a2_dtype := DTYPE; a2_cols := a2_cols points;
            a2_rows := scaled_rows DTYPE (a2_rows points) rest |}
    with (scaled_batch DTYPE points rest).
  by rewrite (sample_components_stops prim pre c post _ _ _ _ e Hpre Hc).
Qed.

Lemma primitive_error_propagates_witness :
  _transform_points float32 reference_map_coordinates built_self (scenario_points float32)
    (built float32 grid_scenario 3 "mirror" 0%Q)
  = (built float32 grid_scenario 3 "mirror" 0%Q,
     inl (RuntimeError "spline order not supported")).
Proof.
  apply (primitive_error_propagates float32 reference_map_coordinates 1%positive
           3 "mirror" 0%Q (caller_heap grid_scenario)
           (built float32 grid_scenario 3 "mirror" 0%Q) built_self grid_scenario
           (scenario_points float32) []
           {| nd_dtype := float32; nd_shape := [3; 3]%nat;
              nd_data := take 9 (drop 0 (nd_data grid_scenario)) |}
           [{| nd_dtype := float32; nd_shape := [3; 3]%nat;
               nd_data := take 9 (drop 9 (nd_data grid_scenario)) |}]).
  - vm_compute. reflexivity.
  - reflexivity.
  - split; [reflexivity|]. split; [|reflexivity]. repeat constructor.
  - reflexivity.
  - constructor.
  - reflexivity.
Defined.

Lemma broadcast2_error f a b e :
  broadcast2 f a b = inl e → e = ValueError "operands could not be broadcast together".
Proof.
  unfold broadcast2.
  destruct (broadcast_dim (a2_nrows a) (a2_nrows b));
    [destruct (broadcast_dim (a2_cols a) (a2_cols b))|]; congruence.
Qed.

Lemma broadcast2_dtype f a b r :
  broadcast2 f a b = inr r → a2_dtype r = result_type (a2_dtype a) (a2_dtype b).
Proof.
  unfold broadcast2.
  destruct (broadcast_dim (a2_nrows a) (a2_nrows b));
    [destruct (broadcast_dim (a2_cols a) (a2_cols b))|]; try discriminate.
  by intros [= <-].
Qed.

(** X11. The closing assertion of the mapping holds for every transformation
    with at least one axis: the displacement has the dtype of the parameters,
    which the constructor converted to [DTYPE], so the sum has dtype [DTYPE].
    Mapping a batch of dtype [DTYPE], of whatever shape, raises no
    [AssertionError] unless the primitive does. *)
Theorem closing_assertion_holds DTYPE prim g ord md cv (h0 h : heap) self raw points :
  prim_no_assertion prim →
  __init__ DTYPE g ord md cv h0 = (h, inr self) →
  h0 !! g = Some (Array raw) →
  (2 <= nd_ndim raw)%nat →
  a2_dtype points = DTYPE →
  (_transform_points DTYPE prim self points h).2 ≠ inl AssertionError.
Proof.
  intros Hprim Hrun Hg Hrank Hdt.
  destruct (init_transform _ _ _ _ _ _ _ _ Hrun)
    as (raw' & rest & t & Hg' & Hs & Hself & _ & _ & _ & _ & Hp & _).
  rewrite Hg in Hg'. injection Hg' as <-.
  unfold nd_ndim in Hrank. rewrite Hs in Hrank. simpl in Hrank.
  rewrite (transform_points_unfold DTYPE prim h self t _ points Hself Hp Hdt). cbn [snd].
  destruct (broadcast2 Qmult _ _) as [e|scaled] eqn:Hscale.
  { apply broadcast2_error in Hscale as ->. discriminate. }
  destruct (components_of_copy DTYPE raw rest Hs) as (comps & Hcomps & Hclen & _).
  rewrite Hcomps.
  destruct (sample_components _ _ _ _ _ _ _) as [e|ds] eqn:Hds.
  { apply sample_components_error in Hds as (c & _ & Hc).
    intros [= ->]. by apply Hprim in Hc. }
  apply sample_components_ok, Forall2_length in Hds.
  destruct ds as [|d ds]; [simpl in Hds; lia|].
  destruct (broadcast2 Qplus _ _) as [e|result] eqn:Hadd.
  { apply broadcast2_error in Hadd as ->. discriminate. }
  apply broadcast2_dtype in Hadd. cbn [np_array_rows a2_dtype np_array nd_dtype] in Hadd.
  by rewrite Hadd, Hdt, result_type_same, dtype_eqb_refl.
Qed.

Lemma reference_no_assertion : prim_no_assertion reference_map_coordinates.
Proof.
  intros a c order mode cval. unfold reference_map_coordinates.
  repeat match goal with |- context [if ?b then _ else _] => destruct b end;
    discriminate.
Qed.

Lemma closing_assertion_holds_witness :
  (_transform_points float32 reference_map_coordinates built_self
     (batch float32 1 [[1 # 2]; [1 # 2]; [1 # 2]])
     (built float32 grid_scenario 1 "mirror" 0%Q)).2 ≠ inl AssertionError.
Proof.
  apply (closing_assertion_holds float32 reference_map_coordinates 1%positive
           1 "mirror" 0%Q (caller_heap grid_scenario)
           (built float32 grid_scenario 1 "mirror" 0%Q) built_self grid_scenario).
  - exact reference_no_assertion.
  - vm_compute. reflexivity.
  - reflexivity.
  - vm_compute. lia.
  - reflexivity.
Defined.

(** ** Points are mapped one by one *)

Lemma nth_map_lt {A B} (f : A → B) (l : list A) j (da : A) (db : B) :
  (j < length l)%nat → nth j (map f l) db = f (nth j l da).
Proof.
  intros Hj. rewrite (nth_indep _ db (f da)) by (by rewrite length_map).
  apply map_nth.
Qed.

Lemma nth_zip_with_lt (f : Q → Q → Q) (r d : list Q) j :
  (j < length r)%nat → (j < length d)%nat →
  nth j (zip_with f r d) 0%Q = f (nth j r 0%Q) (nth j d 0%Q).
Proof.
  revert d j. induction r as [|x r IH]; intros [|y d] [|j] Hr Hd; simpl in *; try lia.
  - reflexivity.
  - apply IH; lia.
Qed.

Lemma column_scaled DTYPE points spatial j :
  wf_array2 points → (j < a2_cols points)%nat →
  column j (scaled_batch DTYPE points spatial)
  = zip_with (λ (x : Q) (n : nat), (x * scale_factor DTYPE n)%Q)
             (column j points) spatial.
Proof.
  unfold column, scaled_batch, scaled_rows, wf_array2. cbn [a2_rows].
  intros Hwf Hj. revert spatial.
  induction Hwf as [|row rows Hrow _ IH]; intros [|n spatial]; simpl; try reflexivity.
  f_equal; [|apply IH].
  apply (nth_map_lt (λ x, (x * scale_factor DTYPE n)%Q)). lia.
Qed.

Lemma column_zip_plus c (rows ds : list (list Q)) j :
  Forall (λ r, length r = c) rows →
  Forall (λ r, length r = c) ds →
  (j < c)%nat →
  map (λ r, nth j r 0%Q) (zip_with (zip_with Qplus) rows ds)
  = zip_with Qplus (map (λ r, nth j r 0%Q) rows) (map (λ r, nth j r 0%Q) ds).
Proof.
  intros Hr. revert ds. induction Hr as [|r rows Hlen _ IH]; intros ds Hd Hj; [reflexivity|].
  destruct Hd as [|d ds Hdl Hd]; [reflexivity|]. simpl. f_equal; [|by apply IH].
  apply nth_zip_with_lt; lia.
Qed.

Lemma sampled_columns_agree prim comps coords coords' order mode cval ds ds' j j' :
  prim_pointwise prim →
  Forall2 (λ comp d, prim comp coords order mode cval = inr d) comps ds →
  Forall2 (λ comp d, prim comp coords' order mode cval = inr d) comps ds' →
  (j < a2_cols coords)%nat → (j' < a2_cols coords')%nat →
  column j coords = column j' coords' →
  map (λ r, nth j r 0%Q) ds = map (λ r, nth j' r 0%Q) ds'.
Proof.
  intros Hpw Hds. revert ds'.
  induction Hds as [|c d comps ds Hd _ IH]; intros ds' Hds' Hj Hj' Hcol;
    inversion Hds' as [|? d' ? ds'' Hd' Hrest]; subst; [reflexivity|].
  simpl. f_equal; [|by apply IH].
  by apply (Hpw c coords coords' order mode cval).
Qed.

(** X10. The mapping treats the points of a batch one by one: when the
    primitive evaluates its queries one by one, a point is mapped to the same
    point whatever batch it is part of and wherever it stands in it. *)
Theorem mapping_pointwise DTYPE prim g ord md cv (h0 h : heap) self raw points points' j j' :
  prim_arity prim →
  prim_pointwise prim →
  prim_accepts prim ord md cv →
  __init__ DTYPE g ord md cv h0 = (h, inr self) →
  h0 !! g = Some (Array raw) →
  control_grid raw →
  valid_batch DTYPE (nd_ndim raw - 1) points →
  valid_batch DTYPE (nd_ndim raw - 1) points' →
  (j < a2_cols points)%nat →
  (j' < a2_cols points')%nat →
  column j points = column j' points' →
  ∃ result result',
    _transform_points DTYPE prim self points h = (h, inr result)
    ∧ _transform_points DTYPE prim self points' h = (h, inr result')
    ∧ column j result = column j' result'.
Proof.
  intros Har Hpw Hacc Hrun Hg Hgrid Hvalid Hvalid' Hj Hj' Hcol.
  destruct (transform_points_valid DTYPE prim g ord md cv h0 h self raw points
              Har Hacc Hrun Hg Hgrid Hvalid)
    as (comps & ds & Hcomps & Hall & Hdl & Hdc & Hmap).
  destruct (transform_points_valid DTYPE prim g ord md cv h0 h self raw points'
              Har Hacc Hrun Hg Hgrid Hvalid')
    as (comps' & ds' & Hcomps' & Hall' & Hdl' & Hdc' & Hmap').
  rewrite Hcomps in Hcomps'. injection Hcomps' as <-.
  destruct Hvalid as (_ & Hwf & _), Hvalid' as (_ & Hwf' & _).
  eexists _, _. split; [exact Hmap|]. split; [exact Hmap'|].
  unfold column. cbn [a2_rows].
  rewrite (column_zip_plus (a2_cols points)), (column_zip_plus (a2_cols points')) by auto.
  fold (column j points). fold (column j' points'). rewrite Hcol. f_equal.
  eapply sampled_columns_agree; eauto.
  rewrite !column_scaled by auto. by rewrite Hcol.
Qed.

Lemma reference_pointwise : prim_pointwise reference_map_coordinates.
Proof.
  intros a c c' order mode cval out out' j j' H H' Hj Hj' Hcol.
  apply reference_inv in H as (_ & _ & ->). apply reference_inv in H' as (_ & _ & ->).
  rewrite !nth_map_seq by assumption. by rewrite Hcol.
Qed.

Lemma mapping_pointwise_witness :
  ∃ result result',
    _transform_points float32 reference_map_coordinates built_self
      (batch float32 2 [[1 # 2; 1 # 4]; [1 # 2; 3 # 4]])
      (built float32 grid_scenario 1 "mirror" 0%Q)
    = (built float32 grid_scenario 1 "mirror" 0%Q, inr result)
    ∧ _transform_points float32 reference_map_coordinates built_self
        (scenario_points float32) (built float32 grid_scenario 1 "mirror" 0%Q)
      = (built float32 grid_scenario 1 "mirror" 0%Q, inr result')
    ∧ column 0 result = column 0 result'.
Proof.
  apply (mapping_pointwise float32 reference_map_coordinates 1%positive 1 "mirror" 0%Q
           (caller_heap grid_scenario) (built float32 grid_scenario 1 "mirror" 0%Q)
           built_self grid_scenario).
  - exact reference_arity.
  - exact reference_pointwise.
  - apply reference_accepts; [right|]; reflexivity.
  - vm_compute. reflexivity.
  - reflexivity.
  - split; [split; [reflexivity | vm_compute; lia]|].
    split; [vm_compute; lia | repeat constructor].
  - split; [reflexivity|]. split; [|reflexivity]. repeat constructor.
  - split; [reflexivity|]. split; [|reflexivity]. repeat constructor.
  - vm_compute. lia.
  - vm_compute. lia.
  - reflexivity.
Defined.

(** X12. The result of mapping a valid batch is a valid batch for the same
    transformation, so mappings can be chained: the result can be mapped
    again, and that second call returns. *)
Theorem mapping_chains DTYPE prim g ord md cv (h0 h : heap) self raw points :
  prim_arity prim →
  prim_accepts prim ord md cv →
  __init__ DTYPE g ord md cv h0 = (h, inr self) →
  h0 !! g = Some (Array raw) →
  control_grid raw →
  valid_batch DTYPE (nd_ndim raw - 1) points →
  ∃ result result2,
    _transform_points DTYPE prim self points h = (h, inr result)
    ∧ valid_batch DTYPE (nd_ndim raw - 1) result
    ∧ a2_cols result = a2_cols points
    ∧ _transform_points DTYPE prim self result h = (h, inr result2)
    ∧ valid_batch DTYPE (nd_ndim raw - 1) result2
    ∧ a2_cols result2 = a2_cols points.
Proof.
  intros Har Hacc Hrun Hg Hgrid Hvalid.
  assert (Hstep : ∀ P, valid_batch DTYPE (nd_ndim raw - 1) P →
            ∃ R, _transform_points DTYPE prim self P h = (h, inr R)
                 ∧ valid_batch DTYPE (nd_ndim raw - 1) R ∧ a2_cols R = a2_cols P).
  { intros P HP.
    destruct (transform_points_valid DTYPE prim g ord md cv h0 h self raw P
                Har Hacc Hrun Hg Hgrid HP)
      as (comps & ds & _ & _ & Hdl & Hdc & Hmap).
    destruct HP as (Hdt & Hwf & Hrows).
    eexists. split; [exact Hmap|]. split; [|reflexivity].
    split; [reflexivity|]. split.
    - unfold wf_array2. cbn [a2_rows a2_cols]. by apply zip_plus_wf.
    - unfold a2_nrows in *. cbn [a2_rows]. rewrite length_zip_with. lia. }
  destruct (Hstep points Hvalid) as (R1 & H1 & HR1 & Hc1).
  destruct (Hstep R1 HR1) as (R2 & H2 & HR2 & Hc2).
  exists R1, R2. repeat split; try assumption; try apply HR1; try apply HR2. congruence.
Qed.

Lemma mapping_chains_witness :
  ∃ result result2,
    _transform_points float32 reference_map_coordinates built_self
      (scenario_points float32) (built float32 grid_scenario 1 "mirror" 0%Q)
    = (built float32 grid_scenario 1 "mirror" 0%Q, inr result)
    ∧ valid_batch float32 (nd_ndim grid_scenario - 1) result
    ∧ a2_cols result = a2_cols (scenario_points float32)
    ∧ _transform_points float32 reference_map_coordinates built_self result
        (built float32 grid_scenario 1 "mirror" 0%Q)
      = (built float32 grid_scenario 1 "mirror" 0%Q, inr result2)
    ∧ valid_batch float32 (nd_ndim grid_scenario - 1) result2
    ∧ a2_cols result2 = a2_cols (scenario_points float32).
Proof.
  apply (mapping_chains float32 reference_map_coordinates 1%positive 1 "mirror" 0%Q
           (caller_heap grid_scenario) (built float32 grid_scenario 1 "mirror" 0%Q)
           built_self grid_scenario).
  - exact reference_arity.
  - apply reference_accepts; [right|]; reflexivity.
  - vm_compute. reflexivity.
  - reflexivity.
  - split; [split; [reflexivity | vm_compute; lia]|].
    split; [vm_compute; lia | repeat constructor].
  - split; [reflexivity|]. split; [|reflexivity]. repeat constructor.
Defined.

(** ** The scaled points stay on the grid *)

(** Coordinates of the normalized domain, scaled by exact factors of axes that
    are not empty, lie within the extent. *)
Lemma unit_column_in_extent DTYPE (xs : list Q) (spatial : list nat) :
  length xs = length spatial →
  Forall (λ x : Q, (0 <= x)%Q ∧ (x <= 1)%Q) xs →
  nonempty_axes spatial →
  exact_axes DTYPE spatial →
  in_extent (zip_with (λ (x : Q) (n : nat), (x * scale_factor DTYPE n)%Q) xs spatial)
            spatial.
Proof.
  intros Hlen Hxs. revert spatial Hlen.
  induction Hxs as [|x xs [H0 H1] _ IH]; intros [|n spatial] Hlen Hne Hex;
    try discriminate; [constructor|].
  inversion Hne as [|? ? Hn Hne']; subst. inversion Hex as [|? ? He Hex']; subst.
  simpl. constructor; [|apply IH; auto].
  rewrite (scale_factor_exact _ _ He).
  assert (Hpos : (0 <= inject_Z (Z.of_nat n - 1))%Q).
  { change 0%Q with (inject_Z 0). rewrite <- Zle_Qle. lia. }
  split.
  - by apply Qmult_le_0_compat.
  - rewrite <- (Qmult_1_l (inject_Z (Z.of_nat n - 1))) at 2.
    by apply Qmult_le_compat_r.
Qed.

(** X13. For a control-point grid whose axes are short enough for the factor
    to be exact, a batch of points of the normalized domain [0, 1] is sampled
    within the extent of the grid only: the coordinates at which the primitive
    is called for the displacement that the mapping adds lie between the first
    and the last control point of every axis. *)
Theorem scaled_in_extent DTYPE prim g ord md cv (h0 h : heap) self raw points :
  prim_arity prim →
  prim_accepts prim ord md cv →
  __init__ DTYPE g ord md cv h0 = (h, inr self) →
  h0 !! g = Some (Array raw) →
  control_grid raw →
  exact_axes DTYPE (tail (nd_shape raw)) →
  valid_batch DTYPE (nd_ndim raw - 1) points →
  (∀ d i x, cell (a2_rows points) d i = Some x → (0 <= x)%Q ∧ (x <= 1)%Q) →
  let scaled := scaled_batch DTYPE points (tail (nd_shape raw)) in
  ∃ comps displacement,
    components (np_array raw DTYPE) = inr comps
    ∧ Forall2 (λ comp d, prim comp scaled ord md cv = inr d) comps displacement
    ∧ _transform_points DTYPE prim self points h
      = (h, inr {| a2_dtype := DTYPE; a2_cols := a2_cols points;
                   a2_rows := zip_with (zip_with Qplus) (a2_rows points)
                                       displacement |})
    ∧ ∀ j, (j < a2_cols points)%nat →
        in_extent (column j scaled) (tail (nd_shape raw)).
Proof.
  intros Har Hacc Hrun Hg Hgrid Hexact Hvalid Hunit scaled. subst scaled.
  destruct (transform_points_valid DTYPE prim g ord md cv h0 h self raw points
              Har Hacc Hrun Hg Hgrid Hvalid)
    as (comps & ds & Hcomps & Hall & _ & _ & Hmap).
  exists comps, ds. split; [exact Hcomps|]. split; [exact Hall|].
  split; [exact Hmap|].
  intros j Hj. destruct Hvalid as (_ & Hwf & Hrows), Hgrid as (_ & Hrank & Haxes).
  rewrite column_scaled by assumption.
  apply unit_column_in_extent; [| |exact Haxes|exact Hexact].
  - unfold column. rewrite length_map. unfold a2_nrows in Hrows. rewrite Hrows.
    unfold nd_ndim in *. destruct (nd_shape raw); simpl in *; lia.
  - unfold column. apply Forall_fmap, Forall_lookup. intros d row Hrow. cbn.
    assert (Hl : length row = a2_cols points)
      by exact (proj1 (Forall_lookup _ _) Hwf d row Hrow).
    destruct (lookup_lt_is_Some_2 row j) as [x Hx]; [lia|].
    rewrite (nth_lookup_Some _ _ 0%Q _ Hx).
    apply (Hunit d j x). unfold cell. by rewrite Hrow.
Qed.

Lemma scaled_in_extent_witness :
  let scaled := scaled_batch float32 (batch float32 2 [[1 # 2; 0]; [3 # 4; 1]]%Q)
                  (tail (nd_shape grid_scenario)) in
  ∃ comps displacement,
    components (np_array grid_scenario float32) = inr comps
    ∧ Forall2 (λ comp d, reference_map_coordinates comp scaled 1 "constant" 5%Q = inr d)
        comps displacement
    ∧ _transform_points float32 reference_map_coordinates built_self
        (batch float32 2 [[1 # 2; 0]; [3 # 4; 1]]%Q)
        (built float32 grid_scenario 1 "constant" 5%Q)
      = (built float32 grid_scenario 1 "constant" 5%Q,
         inr {| a2_dtype := float32;
                a2_cols := a2_cols (batch float32 2 [[1 # 2; 0]; [3 # 4; 1]]%Q);
                a2_rows := zip_with (zip_with Qplus)
                             (a2_rows (batch float32 2 [[1 # 2; 0]; [3 # 4; 1]]%Q))
                             displacement |})
    ∧ ∀ j, (j < a2_cols (batch float32 2 [[1 # 2; 0]; [3 # 4; 1]]%Q))%nat →
        in_extent (column j scaled) (tail (nd_shape grid_scenario)).
Proof.
  apply (scaled_in_extent float32 reference_map_coordinates 1%positive 1 "constant" 5%Q
           (caller_heap grid_scenario) (built float32 grid_scenario 1 "constant" 5%Q)
           built_self grid_scenario (batch float32 2 [[1 # 2; 0]; [3 # 4; 1]]%Q)).
  - exact reference_arity.
  - apply reference_accepts; [right|]; reflexivity.
  - vm_compute. reflexivity.
  - reflexivity.
  - split; [split; [reflexivity | vm_compute; lia]|].
    split; [vm_compute; lia | repeat constructor].
  - repeat constructor; vm_compute; discriminate.
  - split; [reflexivity|]. split; [|reflexivity]. repeat constructor.
  - intros [|[|d]] [|[|i]] x Hx; try discriminate; injection Hx as <-;
      split; vm_compute; discriminate.
Defined.
